(** * go-http-tunnel: forwarding proxy, relay primitive and tunnel server

    A shallow embedding of [forwardingproxy.go], [utils.go] and the tunnel
    server (package [h2tun]) together with the properties their
    specification states.

    Go strings are byte strings: they are modelled as [string] over [ascii]
    (eight bits per character).  Go's [int] indices are modelled as [Z]; the
    value [-1] that [strings.IndexByte] returns for an absent byte matters to
    the callers.  Effects (log records, writes to a response writer, dialling,
    closing) are modelled as traces of events. *)

From Stdlib Require Import ZArith Lia List Bool Ascii String.
From stdpp Require Import base option list strings gmap.
Import ListNotations.

Local Open Scope string_scope.
Local Open Scope Z_scope.

(** ** Go's [strings] package, as far as the sources use it *)

Module GoStrings.

(** [len(s)] *)
Definition len (s : string) : Z := Z.of_nat (String.length s).

(** [strings.IndexByte(s, c)]: index of the first [c] in [s], or [-1]. *)
Fixpoint IndexByte (s : string) (c : ascii) : Z :=
  match s with
  | EmptyString => -1
  | String a s' =>
      if Ascii.eqb a c then 0
      else let i := IndexByte s' c in
           if i <? 0 then -1 else i + 1
  end.

(** Index of the last [c] in [s], or [-1] (the helper [last] of package
    [net], a backwards scan). *)
Fixpoint LastIndexByte (s : string) (c : ascii) : Z :=
  match s with
  | EmptyString => -1
  | String a s' =>
      let i := LastIndexByte s' c in
      if 0 <=? i then i + 1
      else if Ascii.eqb a c then 0 else -1
  end.

(** [strings.HasPrefix(s, prefix)] *)
Fixpoint HasPrefix (s prefix : string) {struct prefix} : bool :=
  match prefix, s with
  | EmptyString, _ => true
  | String p prefix', String a s' => Ascii.eqb a p && HasPrefix s' prefix'
  | String _ _, EmptyString => false
  end.

(** [s[i:]] for [0 <= i <= len(s)] *)
Fixpoint dropn (n : nat) (s : string) : string :=
  match n, s with
  | O, _ => s
  | S n', String _ s' => dropn n' s'
  | S _, EmptyString => EmptyString
  end.

(** [s[:i]] for [0 <= i <= len(s)] *)
Fixpoint taken (n : nat) (s : string) : string :=
  match n, s with
  | O, _ => EmptyString
  | S n', String a s' => String a (taken n' s')
  | S _, EmptyString => EmptyString
  end.

Definition sliceFrom (s : string) (i : Z) : string := dropn (Z.to_nat i) s.
Definition sliceTo (s : string) (i : Z) : string := taken (Z.to_nat i) s.
(** [s[i:j]] *)
Definition slice (s : string) (i j : Z) : string := sliceFrom (sliceTo s j) i.

(** [s[i]], with a null byte standing in for the out-of-range panic; the
    sources only index in range. *)
Definition byteAt (s : string) (i : Z) : ascii :=
  match String.get (Z.to_nat i) s with
  | Some a => a
  | None => Ascii.zero
  end.

(** [strings.Contains(s, substr)] *)
Fixpoint Contains (s substr : string) : bool :=
  HasPrefix s substr ||
  match s with
  | EmptyString => false
  | String _ s' => Contains s' substr
  end.

End GoStrings.

(** ** [encoding/base64]: [StdEncoding.DecodeString]

    The standard alphabet with ['='] padding, not strict.  As Go's decoder
    does, carriage returns and line feeds are skipped wherever they occur,
    input is consumed in quanta of four sextets, a quantum may be cut short
    only by padding, and nothing but line breaks may follow the padding. *)

Module Base64.

Definition decodeMap (c : ascii) : option Z :=
  let n := Z.of_N (N_of_ascii c) in
  if (65 <=? n) && (n <=? 90) then Some (n - 65)            (* 'A'..'Z' *)
  else if (97 <=? n) && (n <=? 122) then Some (n - 97 + 26) (* 'a'..'z' *)
  else if (48 <=? n) && (n <=? 57) then Some (n - 48 + 52)  (* '0'..'9' *)
  else if n =? 43 then Some 62                              (* '+' *)
  else if n =? 47 then Some 63                              (* '/' *)
  else None.

Definition padChar : ascii := "="%char.

Definition isNewline (c : ascii) : bool :=
  Ascii.eqb c "010"%char || Ascii.eqb c "013"%char.

Definition byte (v : Z) : ascii := ascii_of_N (Z.to_N (Z.land v 255)).

(** The 24-bit value of a quantum; [dbuf] holds the sextets read so far,
    the missing ones count as zero. *)
Definition quantumVal (dbuf : list Z) : Z :=
  Z.lor (Z.lor (Z.lor (Z.shiftl (nth 0 dbuf 0) 18)
                      (Z.shiftl (nth 1 dbuf 0) 12))
               (Z.shiftl (nth 2 dbuf 0) 6))
        (nth 3 dbuf 0).

(** The [dlen - 1] bytes a quantum of [dlen] sextets yields. *)
Definition quantumBytes (dbuf : list Z) : string :=
  let val := quantumVal dbuf in
  let b0 := byte (Z.shiftr val 16) in
  let b1 := byte (Z.shiftr val 8) in
  let b2 := byte val in
  match List.length dbuf with
  | 4%nat => String b0 (String b1 (String b2 EmptyString))
  | 3%nat => String b0 (String b1 EmptyString)
  | 2%nat => String b0 EmptyString
  | _ => EmptyString
  end.

(** The inner loops [for si < len(src) && (src[si] == '\n' || ...)]. *)
Fixpoint skipNewlines (src : string) : string :=
  match src with
  | String c rest => if isNewline c then skipNewlines rest else src
  | EmptyString => EmptyString
  end.

(** What follows the first padding character of a quantum holding [dbuf]. *)
Definition afterPadding (dbuf : list Z) (rest : string) : option string :=
  match List.length dbuf with
  | 2%nat =>
      (* a second pad character is expected *)
      match skipNewlines rest with
      | EmptyString => None
      | String c rest' =>
          if Ascii.eqb c padChar then
            match skipNewlines rest' with
            | EmptyString => Some (quantumBytes dbuf)
            | String _ _ => None
            end
          else None
      end
  | 3%nat =>
      match skipNewlines rest with
      | EmptyString => Some (quantumBytes dbuf)
      | String _ _ => None
      end
  | _ => None
  end.

(** The decoding loop; [dbuf] is the quantum being filled.  [None] stands
    for a [CorruptInputError]. *)
Fixpoint decode (src : string) (dbuf : list Z) : option string :=
  match src with
  | EmptyString =>
      match dbuf with
      | [] => Some EmptyString
      | _ :: _ => None
      end
  | String c rest =>
      match decodeMap c with
      | Some v =>
          let dbuf' := (dbuf ++ [v])%list in
          if Nat.eqb (List.length dbuf') 4 then
            match decode rest [] with
            | Some out => Some (quantumBytes dbuf' +:+ out)
            | None => None
            end
          else decode rest dbuf'
      | None =>
          if isNewline c then decode rest dbuf
          else if Ascii.eqb c padChar then afterPadding dbuf rest
          else None
      end
  end.

Definition DecodeString (s : string) : option string := decode s [].

(** [StdEncoding.EncodeToString]: three bytes become four characters of
    the alphabet, and a last group of one or two bytes is padded. *)
Definition encodeStd : string :=
  "ABCDEFGHIJKLMNOPQRSTUVWXYZabcdefghijklmnopqrstuvwxyz0123456789+/".

Definition encodeChar (v : Z) : ascii := GoStrings.byteAt encodeStd (Z.land v 63).

Definition code (c : ascii) : Z := Z.of_N (N_of_ascii c).

Fixpoint EncodeToString (src : string) : string :=
  match src with
  | String a (String b (String c rest)) =>
      let val := Z.lor (Z.lor (Z.shiftl (code a) 16) (Z.shiftl (code b) 8)) (code c) in
      String (encodeChar (Z.shiftr val 18))
        (String (encodeChar (Z.shiftr val 12))
           (String (encodeChar (Z.shiftr val 6))
              (String (encodeChar val) (EncodeToString rest))))
  | String a (String b EmptyString) =>
      let val := Z.lor (Z.shiftl (code a) 16) (Z.shiftl (code b) 8) in
      String (encodeChar (Z.shiftr val 18))
        (String (encodeChar (Z.shiftr val 12))
           (String (encodeChar (Z.shiftr val 6)) (String padChar EmptyString)))
  | String a EmptyString =>
      let val := Z.shiftl (code a) 16 in
      String (encodeChar (Z.shiftr val 18))
        (String (encodeChar (Z.shiftr val 12))
           (String padChar (String padChar EmptyString)))
  | EmptyString => EmptyString
  end.

End Base64.

(** ** Package [net]: [SplitHostPort]

    [SplitHostPort] splits ["host:port"], ["[host]:port"] and the like at the
    last colon; a bracketed host loses its brackets.  [None] stands for an
    [AddrError]. *)

Module Net.
Import GoStrings.

Definition SplitHostPort (hostport : string) : option (string * string) :=
  let i := LastIndexByte hostport ":"%char in
  if i <? 0 then None (* missing port in address *)
  else
    let bracketed := Ascii.eqb (byteAt hostport 0) "["%char in
    let '(host, j, k, ok) :=
      if bracketed then
        let e := IndexByte hostport "]"%char in
        if e <? 0 then ("", 0, 0, false) (* missing ']' in address *)
        else if e + 1 =? len hostport then ("", 0, 0, false) (* missing port *)
        else if e + 1 =? i then (slice hostport 1 e, 1, e + 1, true)
        else ("", 0, 0, false) (* too many colons, or missing port *)
      else
        let host := sliceTo hostport i in
        if 0 <=? IndexByte host ":"%char then ("", 0, 0, false) (* too many colons *)
        else (host, 0, 0, true) in
    if negb ok then None
    else if 0 <=? IndexByte (sliceFrom hostport j) "["%char then None
    else if 0 <=? IndexByte (sliceFrom hostport k) "]"%char then None
    else Some (host, sliceFrom hostport (i + 1)).

End Net.

(** ** [utils.go]: the relay primitive *)

(** An endpoint of a copy.  Go probes the dynamic type of [dst] and [src] for
    the [closeWriter] and [closeReader] interfaces; the two flags record
    whether the endpoint implements them. *)
Record Endpoint := {
  ep_name : string;
  closeWriter : bool;
  closeReader : bool;
}.

(** What a relay does to the outside world. *)
Inductive IOEvent :=
| Copy (dst src : Endpoint) (n : Z)          (* io.Copy(dst, src) *)
| LogCopyError (side err : string)           (* TransferLog.Error *)
| CloseWrite (e : Endpoint)
| CloseRead (e : Endpoint)
| Close (e : Endpoint)
| LogCopied (n : Z) (side : string).         (* TransferLog.Debug *)

(** The result of [io.Copy]: the number of bytes copied and the error, if
    any, that ended the copy ([None] is end-of-stream). *)
Definition CopyResult : Type := Z * option string.

(** [transfer] has no result: nothing of the copy's outcome reaches the
    caller besides the events it leaves. *)
Definition transfer (ioCopy : Endpoint -> Endpoint -> CopyResult)
    (side : string) (dst src : Endpoint) : list IOEvent :=
  let '(n, err) := ioCopy dst src in
  ([Copy dst src n]
   ++ match err with
      | Some e => [LogCopyError side e]
      | None => []
      end
   ++ (if closeWriter dst then [CloseWrite dst] else [])
   ++ (if closeReader src then [CloseRead src] else [Close src])
   ++ [LogCopied n side])%list.

(** [url(host)] *)
Definition url (host : string) : string := "https://" +:+ host.

(** [flushWriter{w}]: a struct with a [Write] method only, so it offers
    neither half-close. *)
Definition flushWriter (w : string) : Endpoint :=
  {| ep_name := w; closeWriter := false; closeReader := false |}.

(** The events of a trace that close an endpoint or one of its halves. *)
Definition isClosing (e : IOEvent) : bool :=
  match e with
  | CloseWrite _ | CloseRead _ | Close _ => true
  | _ => false
  end.

(** All the orders in which the events of two goroutines may be observed. *)
Inductive interleave {A : Type} : list A -> list A -> list A -> Prop :=
| interleave_nil : interleave [] [] []
| interleave_l a l1 l2 l :
    interleave l1 l2 l -> interleave (a :: l1) l2 (a :: l)
| interleave_r a l1 l2 l :
    interleave l1 l2 l -> interleave l1 (a :: l2) (a :: l).

(** ** Package [proto] of the forwarding proxy *)

(** Modelled from the spec: package [proto] is not under src/.  The spec
    lists the protocols of a control message as HTTP, HTTP-CONNECT and raw
    TCP; in Go they are string constants and [ForwardedProto] is a string.
    Nothing below depends on the spelling of a constant, only on the
    constants being distinct. *)
Module proto.
Definition HTTP : string := "http".
Definition HTTPCONNECT : string := "http-connect".
Definition TCP : string := "tcp".

(** The fields of [proto.ControlMessage] that [forwardingproxy.go] reads. *)
Record ControlMessage := {
  Action : string;
  ForwardedHost : string;
  ForwardedProto : string;
  RemoteAddr : string;
}.
End proto.

(** ** [net/http] values *)

Module http.

(** [http.Header]; [Get] returns the first value of a key, or [""]. *)
Definition Header : Type := gmap string (list string).

Definition Get (h : Header) (key : string) : string :=
  match h !! key with
  | Some (v :: _) => v
  | _ => ""
  end.

Record Url := {
  Scheme : string;
  URLHost : string;
  Path : string;
}.

Record Request := {
  Method : string;
  URL : Url;
  Host : string;
  header : Header;
  RemoteAddr : string;
}.

Definition MethodConnect : string := "CONNECT".
Definition MethodPut : string := "PUT".

Definition StatusOK : Z := 200.
Definition StatusMethodNotAllowed : Z := 405.
Definition StatusProxyAuthRequired : Z := 407.
Definition StatusBadGateway : Z := 502.
Definition StatusServiceUnavailable : Z := 503.

Definition StatusText (code : Z) : string :=
  if code =? StatusOK then "OK"
  else if code =? StatusMethodNotAllowed then "Method Not Allowed"
  else if code =? StatusProxyAuthRequired then "Proxy Authentication Required"
  else if code =? StatusBadGateway then "Bad Gateway"
  else if code =? StatusServiceUnavailable then "Service Unavailable"
  else "".

(** The [http.ResponseWriter] a handler is given.  [Proxy] obtains it by a
    type assertion that leaves the nil interface when it fails; [flusher]
    records whether the writer's dynamic type implements [http.Flusher]. *)
Inductive ResponseWriter :=
| nilWriter
| writer (flusher : bool).

End http.

(** ** [forwardingproxy.go] *)

Module ForwardingProxy.
Import GoStrings http.

Record ForwardingProxy := {
  localAddr : string;
  AuthUser : string;
  AuthPass : string;
  DestDialTimeout : Z;
  DestReadTimeout : Z;
  DestWriteTimeout : Z;
  ClientReadTimeout : Z;
  ClientWriteTimeout : Z;
}.

(** A value handed to the logger. *)
Inductive LogValue :=
| LStr (s : string)
| LInt (n : Z)
| LMsg (m : proto.ControlMessage)
| LHeader (h : Header).

(** The two directions of a tunnel. *)
Inductive Direction := DestToSink | SourceToDest.

#[local] Set Warnings "-register-all".

(** One goroutine's actions in program order.  [Go body] starts a goroutine
    that performs [body]; [CloseDone] is [close(done)] and [RecvDone] is
    [<-done]. *)
Inductive Event :=
| Log (keyvals : list LogValue)                   (* p.logger.Log(...) *)
| Println (args : list string)                    (* fmt.Println(...) *)
| HttpError (error : string) (code : Z)           (* http.Error(w, error, code) *)
| ReverseProxyServeHTTP (r : Request)             (* p.ForwardingHTTPProxy.ServeHTTP(w, r) *)
| DialTimeout (network address : string) (timeout : Z)
| SetReadDeadline (c : Endpoint) (fromNow : Z)
| SetWriteDeadline (c : Endpoint) (fromNow : Z)
| ResponseWrite (StatusCode : Z) (Proto : string) (* resp.Write(w) *)
| Flush                                           (* w.(http.Flusher).Flush() *)
| Relay (d : Direction) (e : IOEvent)             (* an event of a transfer *)
| ConnClose (c : Endpoint)                        (* destConn.Close(), rr.Close() *)
| Go (body : list Event)
| CloseDone
| RecvDone.

#[local] Set Warnings "+register-all".

(** What the proxy meets when it runs. *)
Record Env := {
  (** the writer that [w.(http.ResponseWriter)] yields *)
  sink : ResponseWriter;
  (** [http.ReadRequest(bufio.NewReader(r))]: an error or the request *)
  ReadRequest : string + Request;
  (** [setXForwardedFor(h, remoteAddr)], a helper that is not under src/ *)
  setXForwardedFor : Header -> string -> Header;
  (** [net.DialTimeout(network, address, timeout)] *)
  dial : string -> string -> Z -> string + Endpoint;
  (** [io.Copy(dst, src)] *)
  ioCopy : Endpoint -> Endpoint -> CopyResult;
}.

(** How a call ends: it returns, or it panics (a method call on the nil
    writer, a failed assertion [w.(http.Flusher)]).  Either way [t] lists
    what the calling goroutine did, in program order. *)
Inductive Outcome :=
| Returned (t : list Event)
| Panicked (t : list Event).

Definition events (o : Outcome) : list Event :=
  match o with
  | Returned t | Panicked t => t
  end.

(** Events that happen before an outcome. *)
Definition after (t0 : list Event) (o : Outcome) : Outcome :=
  match o with
  | Returned t => Returned (t0 ++ t)
  | Panicked t => Panicked (t0 ++ t)
  end%list.

(** *** Goroutines

    A configuration holds what is left of the calling goroutine, what is left
    of the goroutine it started, and whether [done] is closed.  The caller
    and the started goroutine take steps in any order; [<-done] can only be
    taken once [done] is closed. *)
Record Config := {
  caller : list Event;
  started : list Event;
  doneClosed : bool;
}.

Definition isControl (e : Event) : bool :=
  match e with
  | Go _ | CloseDone | RecvDone => true
  | _ => false
  end.

(** An event an observer sees. *)
Definition plain (e : Event) : Prop := isControl e = false.

(** [step c o c']: [c] becomes [c'], and [o] is the event an observer sees,
    if any. *)
Inductive step : Config -> option Event -> Config -> Prop :=
| step_caller e m b d :
    plain e ->
    step {| caller := e :: m; started := b; doneClosed := d |} (Some e)
         {| caller := m; started := b; doneClosed := d |}
| step_started e m b d :
    plain e ->
    step {| caller := m; started := e :: b; doneClosed := d |} (Some e)
         {| caller := m; started := b; doneClosed := d |}
| step_go body m d :
    step {| caller := Go body :: m; started := []; doneClosed := d |} None
         {| caller := m; started := body; doneClosed := d |}
| step_close m b d :
    step {| caller := m; started := CloseDone :: b; doneClosed := d |} None
         {| caller := m; started := b; doneClosed := true |}
| step_recv m b :
    step {| caller := RecvDone :: m; started := b; doneClosed := true |} None
         {| caller := m; started := b; doneClosed := true |}.

(** [run c t]: from [c] the caller reaches its end, and [t] is what was
    observed on the way. *)
Inductive run : Config -> list Event -> Prop :=
| run_end b d : run {| caller := []; started := b; doneClosed := d |} []
| run_obs c e c' t : step c (Some e) c' -> run c' t -> run c (e :: t)
| run_tau c c' t : step c None c' -> run c' t -> run c t.

(** The orders in which the events of an outcome may be observed. *)
Definition observed (o : Outcome) (t : list Event) : Prop :=
  run {| caller := events o; started := []; doneClosed := false |} t.

(** Every event of a program, those of the goroutines it starts included. *)
Definition flat (t : list Event) : list Event :=
  flat_map (fun e => match e with Go body => body | _ => [e] end) t.

Definition second : Z := 1000000000. (* time.Second, in nanoseconds *)

(** [NewMultiForwardingProxy]: no credentials are configured. *)
Definition NewMultiForwardingProxy : ForwardingProxy :=
  {| localAddr := "";
     AuthUser := "";
     AuthPass := "";
     DestDialTimeout := 10 * second;
     DestReadTimeout := 5 * second;
     DestWriteTimeout := 5 * second;
     ClientReadTimeout := 5 * second;
     ClientWriteTimeout := 5 * second |}.

(** [http.Error(w, error, code)]: a method call on the nil interface panics. *)
Definition httpError (w : ResponseWriter) (error : string) (code : Z) : Outcome :=
  match w with
  | nilWriter => Panicked []
  | writer _ => Returned [HttpError error code]
  end.

(** [parseBasicProxyAuth] parses an HTTP Basic Authorization string. *)
Definition parseBasicProxyAuth (authz : string) : string * string * bool :=
  let prefix := "Basic " in
  if negb (HasPrefix authz prefix) then ("", "", false)
  else
    match Base64.DecodeString (sliceFrom authz (len prefix)) with
    | None => ("", "", false)
    | Some c =>
        let cs := c in
        let s := IndexByte cs ":"%char in
        if s <? 0 then ("", "", false)
        else (sliceTo cs s, sliceFrom cs (s + 1), true)
    end.

(** Modelled from the spec: the [transfer(dst, src, logger)] that
    [handleTunneling] calls is not under src/.  The spec names it the relay
    primitive, which is what [transfer] of [utils.go] does; that one stands
    in, its side label being the key of the logger's context. *)
Definition handleTunneling (p : ForwardingProxy) (env : Env)
    (w : ResponseWriter) (r : Request) (rr : Endpoint) : Outcome :=
  if negb (String.eqb (Method r) MethodConnect) then
    httpError w (StatusText StatusMethodNotAllowed) StatusMethodNotAllowed
  else
    let dialled := DialTimeout "tcp" (Host r) (DestDialTimeout p) in
    match dial env "tcp" (Host r) (DestDialTimeout p) with
    | inl err => after [dialled] (httpError w err StatusServiceUnavailable)
    | inr destConn =>
        let connected :=
          [dialled;
           SetReadDeadline destConn (DestReadTimeout p);
           SetWriteDeadline destConn (DestWriteTimeout p);
           Println ["Connected to host"; Host r]] in
        match w with
        | nilWriter => Panicked connected
        | writer false =>
            Panicked (connected ++ [ResponseWrite 200 "HTTP/1.1"])
        | writer true =>
            Returned
              (connected
               ++ [ResponseWrite 200 "HTTP/1.1"; Flush;
                   Println ["Flushed to host"; Host r];
                   Go (map (Relay DestToSink)
                         (transfer (ioCopy env) "src" (flushWriter "w") destConn)
                       ++ [CloseDone])]
               ++ map (Relay SourceToDest)
                    (transfer (ioCopy env) "dst" destConn rr)
               ++ [RecvDone;
                   Println ["Done for"; Host r];
                   ConnClose destConn; ConnClose rr])
        end
    end%list.

Definition ServeHTTP (p : ForwardingProxy) (env : Env)
    (w : ResponseWriter) (r : Request) (rr : Endpoint) : Outcome :=
  let dispatch :=
    if String.eqb (Scheme (URL r)) "http" then Returned [ReverseProxyServeHTTP r]
    else handleTunneling p env w r rr in
  after [Log [LStr "Incoming request host"; LStr (Host r)]]
    (if negb (String.eqb (AuthUser p) "") && negb (String.eqb (AuthPass p) "") then
       let '(user, pass, ok) :=
         parseBasicProxyAuth (Get (header r) "Proxy-Authorization") in
       if negb ok || negb (String.eqb user (AuthUser p))
          || negb (String.eqb pass (AuthPass p)) then
         httpError w (StatusText StatusProxyAuthRequired) StatusProxyAuthRequired
       else dispatch
     else dispatch).

(** [Proxy] is a ProxyFunc.  When the assertion [w.(http.ResponseWriter)]
    fails the source logs and goes on with the nil writer. *)
Definition Proxy (p : ForwardingProxy) (env : Env) (r : Endpoint)
    (msg : proto.ControlMessage) : Outcome :=
  if negb (String.eqb (proto.ForwardedProto msg) proto.HTTPCONNECT) then
    Returned [Log [LStr "level"; LInt 0; LStr "msg";
                   LStr "unsupported protocol"; LStr "ctrlMsg"; LMsg msg]]
  else
    let rw := sink env in
    let asserted :=
      match rw with
      | writer _ => []
      | nilWriter =>
          [Log [LStr "level"; LInt 0; LStr "msg";
                LStr "expected http.ResponseWriter"; LStr "ctrlMsg"; LMsg msg]]
      end in
    match ReadRequest env with
    | inl err =>
        Returned (asserted
                  ++ [Log [LStr "level"; LInt 0; LStr "msg";
                           LStr "failed to read request"; LStr "ctrlMsg";
                           LMsg msg; LStr "err"; LStr err]])
    | inr req =>
        let req :=
          {| Method := Method req;
             URL := {| Scheme := Scheme (URL req);
                       URLHost := proto.ForwardedHost msg;
                       Path := Path (URL req) |};
             Host := Host req;
             header := setXForwardedFor env (header req) (proto.RemoteAddr msg);
             RemoteAddr := RemoteAddr req |} in
        after asserted (ServeHTTP p env rw req r)
    end%list.

End ForwardingProxy.

(** ** The second revision of [forwardingproxy.go]

    The sources hold a second revision of the file: the proxy takes its
    credentials at construction, [parseBasicProxyAuth] delegates to
    [parseAuth], the request's header is logged and the [fmt.Println]
    diagnostics are gone. *)

Module ForwardingProxy2.
Import GoStrings http ForwardingProxy.

Definition parseAuth (a : string) : string * string * bool :=
  let s := IndexByte a ":"%char in
  if s <? 0 then ("", "", false)
  else (sliceTo a s, sliceFrom a (s + 1), true).

(** [parseBasicProxyAuth] parses an HTTP Basic Authorization string. *)
Definition parseBasicProxyAuth (authz : string) : string * string * bool :=
  let prefix := "Basic " in
  if negb (HasPrefix authz prefix) then ("", "", false)
  else
    match Base64.DecodeString (sliceFrom authz (len prefix)) with
    | None => ("", "", false)
    | Some c => parseAuth c
    end.

(** [NewMultiForwardingProxy(auth, logger)] *)
Definition NewMultiForwardingProxy (auth : string) : ForwardingProxy :=
  let '(user, pass, ok) := parseAuth auth in
  let '(user, pass) := if negb ok then ("", "") else (user, pass) in
  {| localAddr := "";
     AuthUser := user;
     AuthPass := pass;
     DestDialTimeout := 10 * second;
     DestReadTimeout := 5 * second;
     DestWriteTimeout := 5 * second;
     ClientReadTimeout := 5 * second;
     ClientWriteTimeout := 5 * second |}.

Definition handleTunneling (p : ForwardingProxy) (env : Env)
    (w : ResponseWriter) (r : Request) (rr : Endpoint) : Outcome :=
  if negb (String.eqb (Method r) MethodConnect) then
    httpError w (StatusText StatusMethodNotAllowed) StatusMethodNotAllowed
  else
    let dialled := DialTimeout "tcp" (Host r) (DestDialTimeout p) in
    match dial env "tcp" (Host r) (DestDialTimeout p) with
    | inl err => after [dialled] (httpError w err StatusServiceUnavailable)
    | inr destConn =>
        let connected :=
          [dialled;
           SetReadDeadline destConn (DestReadTimeout p);
           SetWriteDeadline destConn (DestWriteTimeout p)] in
        match w with
        | nilWriter => Panicked connected
        | writer false =>
            Panicked (connected ++ [ResponseWrite 200 "HTTP/1.1"])
        | writer true =>
            Returned
              (connected
               ++ [ResponseWrite 200 "HTTP/1.1"; Flush;
                   Go (map (Relay DestToSink)
                         (transfer (ioCopy env) "src" (flushWriter "w") destConn)
                       ++ [CloseDone])]
               ++ map (Relay SourceToDest)
                    (transfer (ioCopy env) "dst" destConn rr)
               ++ [RecvDone; ConnClose destConn; ConnClose rr])
        end
    end%list.

Definition ServeHTTP (p : ForwardingProxy) (env : Env)
    (w : ResponseWriter) (r : Request) (rr : Endpoint) : Outcome :=
  let dispatch :=
    if String.eqb (Scheme (URL r)) "http" then Returned [ReverseProxyServeHTTP r]
    else handleTunneling p env w r rr in
  after [Log [LStr "Incoming request host"; LStr (Host r); LHeader (header r)]]
    (if negb (String.eqb (AuthUser p) "") && negb (String.eqb (AuthPass p) "") then
       let '(user, pass, ok) :=
         parseBasicProxyAuth (Get (header r) "Proxy-Authorization") in
       if negb ok || negb (String.eqb user (AuthUser p))
          || negb (String.eqb pass (AuthPass p)) then
         httpError w (StatusText StatusProxyAuthRequired) StatusProxyAuthRequired
       else dispatch
     else dispatch).

Definition Proxy (p : ForwardingProxy) (env : Env) (r : Endpoint)
    (msg : proto.ControlMessage) : Outcome :=
  if negb (String.eqb (proto.ForwardedProto msg) proto.HTTPCONNECT) then
    Returned [Log [LStr "level"; LInt 0; LStr "msg";
                   LStr "unsupported protocol"; LStr "ctrlMsg"; LMsg msg]]
  else
    let rw := sink env in
    let asserted :=
      match rw with
      | writer _ => []
      | nilWriter =>
          [Log [LStr "level"; LInt 0; LStr "msg";
                LStr "expected http.ResponseWriter"; LStr "ctrlMsg"; LMsg msg]]
      end in
    match ReadRequest env with
    | inl err =>
        Returned (asserted
                  ++ [Log [LStr "level"; LInt 0; LStr "msg";
                           LStr "failed to read request"; LStr "ctrlMsg";
                           LMsg msg; LStr "err"; LStr err]])
    | inr req =>
        let req :=
          {| Method := Method req;
             URL := {| Scheme := Scheme (URL req);
                       URLHost := proto.ForwardedHost msg;
                       Path := Path (URL req) |};
             Host := Host req;
             header := setXForwardedFor env (header req) (proto.RemoteAddr msg);
             RemoteAddr := RemoteAddr req |} in
        after asserted (ServeHTTP p env rw req r)
    end%list.

End ForwardingProxy2.

(** ** The tunnel server (package [h2tun]) *)

Module Server.
Import GoStrings.

(** [id.ID], the comparable identity of a peer's TLS certificate. *)
Definition ID : Type := string.
(** A [net.Conn] and a [net.Listener], by what the server asks of them. *)
Record Conn := {
  RemoteAddr : string;
  LocalAddr : string;
}.

Record Listener := {
  Network : string;
  ListenAddr : string;
}.

(** [AllowedClient] specifies client entry points on server. *)
Record AllowedClient := {
  ClientID : ID;
  Host : string;
  Listeners : list Listener;
}.

Record ServerConfig := {
  Addr : string;
  AllowedClients : list AllowedClient;
}.

(** Modelled from the spec: package [proto] of the server is not under src/.
    A control message carries an action, a protocol, the forwarded-for and
    forwarded-by addresses and a URL path; the action and the protocol are
    named constants whose spelling nothing below depends on. *)
Record ControlMessage := {
  Action : string;
  Protocol : string;
  ForwardedFor : string;
  ForwardedBy : string;
  URLPath : string;
}.
Definition RequestClientSession : string := "RequestClientSession".
Definition HTTPProtocol : string := "HTTP".

(** Modelled from the spec: [connPool] and its methods are not under src/.
    The registry maps a host to the live connection of its client.
    [addHostConn] fails if the host key is malformed and otherwise succeeds,
    replacing any prior entry for the host; [markHostDead] removes the entry
    of the host if there is one. *)
Definition addHostConn (malformed : string -> bool) (host : string) (conn : Conn)
    (pool : gmap string Conn) : string + gmap string Conn :=
  if malformed host then inl "invalid host" else inr (<[host := conn]> pool).

Definition markHostDead (host : string) (pool : gmap string Conn) : gmap string Conn :=
  delete host pool.

Inductive Level := Debug | Info | Warning | Error.

Inductive Event :=
| Log (l : Level) (format : string) (args : list string)
| LogMsg (l : Level) (format : string) (msg : ControlMessage) (args : list string)
| ConnClose (c : Conn)                            (* conn.Close() *)
| SetDeadline (c : Conn)                          (* conn.SetDeadline(time.Time{}) *)
| GoHandleClient (c : Conn)                       (* go s.handleClient(conn) *)
| GoProxyConn (host : string) (c : Conn) (msg : ControlMessage)
| Pipe                                            (* io.Pipe() *)
| WriteTo (msg : ControlMessage)                  (* msg.WriteTo(req.Header) *)
| GoWriteRequest (r : http.Request)               (* go func() { r.Write(cw) ... } *)
| Do (method target : string)                     (* s.httpClient.Do(req) *)
| CopyHeader (src : http.Header)                  (* copyHeader(w.Header(), inner.Header) *)
| WriteHeader (code : Z)
| Relay (e : IOEvent)
| RecvDone                                        (* <-done *)
| PipeClose (reader : bool)                       (* pr.Close(), pw.Close() *)
| HttpError (error : string) (code : Z).          (* http.Error(w, error, code) *)

(** The response read back from the tunnel. *)
Record InnerResponse := {
  StatusCode : Z;
  InnerHeader : http.Header;
  Body : option Endpoint;
}.

(** What the server meets when it runs. *)
Record Env := {
  (** [peerID] of the connection's TLS layer: an error or the
      certificate's identity *)
  peerID : Conn -> string + ID;
  (** the error of [http.NewRequest(method, url, body)], if any *)
  NewRequest : string -> string -> option string;
  (** the error of [conn.SetDeadline(time.Time{})], if any *)
  setDeadline : Conn -> option string;
  (** which host keys the registry refuses *)
  malformed : string -> bool;
  (** [s.httpClient.Do(req)] over the registry's connections: an error or
      the status of the response *)
  httpClientDo : gmap string Conn -> string -> string -> string + Z;
  (** [http.ReadResponse(bufio.NewReader(resp.Body), r)] *)
  ReadResponse : string + InnerResponse;
  (** [io.Copy(dst, src)] *)
  ioCopy : Endpoint -> Endpoint -> CopyResult;
  (** the response writer [w] of the HTTP entry point, as a copy's endpoint *)
  responseWriter : Endpoint;
}.

Record Server := {
  config : ServerConfig;
  listener : Listener;
}.

Definition checkID (s : Server) (id : ID) : option AllowedClient :=
  find (fun c => String.eqb id (ClientID c)) (AllowedClients (config s)).

(** The step of the handshake at which a control connection is rejected. *)
Inductive Rejection :=
| CertificateError
| UnknownCertificate
| InvalidHost
| AddHostFailed
| HandshakeError
| HandshakeStatus.

Inductive Handshake :=
| Connected
| Rejected (why : Rejection).

(** The label [reject] of [handleClient]. *)
Definition reject (conn : Conn) (client : option AllowedClient)
    (pool : gmap string Conn) (t : list Event) (why : Rejection)
    : gmap string Conn * list Event * Handshake :=
  (match client with
   | Some c => markHostDead (Host c) pool
   | None => pool
   end,
   (t ++ [ConnClose conn])%list,
   Rejected why).

Definition handleClient (s : Server) (env : Env) (pool : gmap string Conn)
    (conn : Conn) : gmap string Conn * list Event * Handshake :=
  match peerID env conn with
  | inl err =>
      reject conn None pool [Log Warning "Certificate error: %s" [err]]
        CertificateError
  | inr id =>
      match checkID s id with
      | None =>
          reject conn None pool [Log Warning "Unknown certificate: %q" [id]]
            UnknownCertificate
      | Some client =>
          match NewRequest env http.MethodConnect (url (Host client)) with
          | Some _ =>
              reject conn (Some client) pool
                [Log Error "Invalid host %q for client %q"
                   [Host client; ClientID client]]
                InvalidHost
          | None =>
              let t :=
                SetDeadline conn ::
                match setDeadline env conn with
                | Some err => [Log Warning "Setting no deadline failed: %s" [err]]
                | None => []
                end in
              match addHostConn (malformed env) (Host client) conn pool with
              | inl err =>
                  reject conn (Some client) pool
                    (t ++ [Log Warning "Could not add host: %s" [err]])
                    AddHostFailed
              | inr pool =>
                  let t := t ++ [Do http.MethodConnect (url (Host client))] in
                  match httpClientDo env pool http.MethodConnect (url (Host client)) with
                  | inl err =>
                      reject conn (Some client) pool
                        (t ++ [Log Warning "Handshake failed %s" [err]])
                        HandshakeError
                  | inr status =>
                      if negb (status =? http.StatusOK) then
                        reject conn (Some client) pool
                          (t ++ [Log Warning "Handshake failed" []])
                          HandshakeStatus
                      else
                        (pool,
                         t ++ [Log Info "Client %q connected from %q"
                                 [ClientID client; RemoteAddr conn]],
                         Connected)
                  end
              end
          end
      end
  end%list.

(** *** The accept loops *)

(** What [Accept] returns. *)
Inductive Accepted :=
| AcceptConn (c : Conn)
| AcceptError (err : string).

Definition closedListener : string := "use of closed network connection".

(** Whether a loop has returned, or waits in [Accept] for what comes next. *)
Inductive Loop := Returns | Accepting.

(** [listenControl], run against the results of the successive [Accept]
    calls. *)
Fixpoint listenControl (s : Server) (accepts : list Accepted) : list Event * Loop :=
  match accepts with
  | [] => ([], Accepting)
  | AcceptError err :: rest =>
      let warned :=
        Log Warning "Accept %s control connection to %q failed: %s"
          [Network (listener s); ListenAddr (listener s); err] in
      if Contains err closedListener then ([warned], Returns)
      else let '(t, l) := listenControl s rest in (warned :: t, l)
  | AcceptConn conn :: rest =>
      let '(t, l) := listenControl s rest in
      (Log Info "Accepted %s control connection from %q to %q"
         [Network (listener s); RemoteAddr conn; ListenAddr (listener s)]
       :: GoHandleClient conn :: t, l)
  end.

(** [listen], likewise. *)
Fixpoint listen (s : Server) (l : Listener) (client : AllowedClient)
    (accepts : list Accepted) : list Event * Loop :=
  match accepts with
  | [] => ([], Accepting)
  | AcceptError err :: rest =>
      let warned :=
        Log Warning "Accept %s connection to %q failed: %s"
          [Network (listener s); ListenAddr (listener s); err] in
      if Contains err closedListener then ([warned], Returns)
      else let '(t, lp) := listen s l client rest in (warned :: t, lp)
  | AcceptConn conn :: rest =>
      let msg :=
        {| Action := RequestClientSession;
           Protocol := Network l;
           ForwardedFor := RemoteAddr conn;
           ForwardedBy := LocalAddr conn;
           URLPath := "" |} in
      let '(t, lp) := listen s l client rest in
      (Log Debug "Accepted %s connection from %q to %q"
         [Network l; RemoteAddr conn; ListenAddr l]
       :: GoProxyConn (Host client) conn msg :: t, lp)
  end.

(** *** The HTTP entry point *)

Definition trimPort (hostPort : string) : string :=
  let host :=
    match Net.SplitHostPort hostPort with
    | Some (host, _) => host
    | None => ""
    end in
  if String.eqb host "" then hostPort else host.

(** [proxyHTTP]: the events of the call, the deferred closes last, and the
    error it returns, if any. *)
Definition proxyHTTP (env : Env) (pool : gmap string Conn) (host : string)
    (r : http.Request) (msg : ControlMessage) : list Event * option string :=
  let deferred := [PipeClose false; PipeClose true] in
  let t := [LogMsg Debug "Start %s" msg []; Pipe] in
  match NewRequest env http.MethodPut (url host) with
  | Some err => (t ++ deferred, Some ("request creation error: " +:+ err))
  | None =>
      let t := t ++ [WriteTo msg; GoWriteRequest r; Do http.MethodPut (url host)] in
      match httpClientDo env pool http.MethodPut (url host) with
      | inl err => (t ++ deferred, Some ("proxy request error: " +:+ err))
      | inr _ =>
          match ReadResponse env with
          | inl err => (t ++ deferred, Some ("reading response error: " +:+ err))
          | inr inner =>
              (t ++ [CopyHeader (InnerHeader inner); WriteHeader (StatusCode inner)]
               ++ match Body inner with
                  | Some body =>
                      map Relay (transfer (ioCopy env) "remote to local"
                                   (responseWriter env) body)
                  | None => []
                  end
               ++ [RecvDone; LogMsg Debug "Done %s" msg []]
               ++ deferred,
               None)
          end
      end
  end%list.

(** [ServeHTTP] proxies http connection to the client. *)
Definition ServeHTTP (env : Env) (pool : gmap string Conn) (r : http.Request)
    : list Event :=
  let msg :=
    {| Action := RequestClientSession;
       Protocol := HTTPProtocol;
       ForwardedFor := http.RemoteAddr r;
       ForwardedBy := http.Host r;
       URLPath := http.Path (http.URL r) |} in
  let '(t, err) := proxyHTTP env pool (trimPort (http.Host r)) r msg in
  match err with
  | Some e =>
      (t ++ [LogMsg Warning "Error %s: %s" msg [e];
             HttpError e http.StatusBadGateway])%list
  | None => t
  end.

End Server.

(** ** [NewReverseProxy]: the director of the reverse proxy *)

Module ReverseProxy.


End ReverseProxy.

(** ** [utils.go]: headers and counted writes *)

(** [copyHeader(dst, src)]: every key of [src] is stored in [dst] with a copy
    of its values.  Go ranges over the map in no fixed order. *)
Definition copyHeader (dst src : http.Header) : http.Header :=
  map_fold (fun k v acc => <[k := v]> acc) dst src.

(** An [int64] sum wraps around. *)
Definition wrap64 (z : Z) : Z := (z + 2 ^ 63) mod 2 ^ 64 - 2 ^ 63.

(** [countWriter.Write]: [res] is what the underlying writer returns, the
    number of bytes it took and its error; the count grows by that number
    and [res] is handed back as it is. *)
Definition countWriter_Write (count : Z) (res : Z * option string)
    : Z * (Z * option string) :=
  (wrap64 (count + fst res), res).

(** A sequence of writes, each with the result of the underlying writer. *)
Fixpoint countWriter_Writes (count : Z) (results : list (Z * option string)) : Z :=
  match results with
  | [] => count
  | res :: rest => countWriter_Writes (fst (countWriter_Write count res)) rest
  end.

(** ** The tunnel server: relaying a public connection *)

Module ProxyConn.
Import Server.

(** What [proxyConn] meets besides what the server meets: the public
    connection and the write end of the pipe as endpoints of a copy, and the
    body of the response. *)
Record Env := {
  server : Server.Env;
  connEndpoint : Conn -> Endpoint;
  pipeWriter : Endpoint;
  respBody : Endpoint;
}.

Inductive Event :=
| Ev (e : Server.Event)
(** [go func() { transfer("local to remote", pw, c); close(done) }()] *)
| GoTransfer (body : list IOEvent).

(** [proxyConn]: the events of the call, the deferred closes last (the
    write end of the pipe, its read end, then the public connection), and
    the error it returns, if any. *)
Definition proxyConn (env : Env) (pool : gmap string Conn) (host : string)
    (c : Conn) (msg : ControlMessage) : list Event * option string :=
  let deferred := [Ev (PipeClose false); Ev (PipeClose true); Ev (ConnClose c)] in
  let t := [Ev (LogMsg Debug "Start %s" msg []); Ev Pipe] in
  match NewRequest (server env) http.MethodPut (url host) with
  | Some err => (t ++ deferred, Some ("request creation error: " +:+ err))
  | None =>
      let t :=
        t ++ [Ev (WriteTo msg);
              GoTransfer (transfer (ioCopy (server env)) "local to remote"
                            (pipeWriter env) (connEndpoint env c));
              Ev (Do http.MethodPut (url host))] in
      match httpClientDo (server env) pool http.MethodPut (url host) with
      | inl err => (t ++ deferred, Some ("proxy request error: " +:+ err))
      | inr _ =>
          (t ++ map (fun e => Ev (Relay e))
                  (transfer (ioCopy (server env)) "remote to local"
                     (connEndpoint env c) (respBody env))
             ++ [Ev RecvDone; Ev (LogMsg Debug "Done %s" msg [])]
             ++ deferred,
           None)
      end
  end%list.

End ProxyConn.

(** ** Package [keepalive]: the option string of the keep-alive flag *)

Module keepalive.
Import GoStrings.

Record Config := {
  KeepAliveIdleTime : string;
  KeepAliveCount : Z;
  KeepAliveInterval : string;
}.

(** [strings.Split(s, sep)] for a separator of one byte: the pieces of [s]
    between the separators, one piece more than there are separators. *)
Fixpoint Split (s : string) (sep : ascii) : list string :=
  match s with
  | EmptyString => [EmptyString]
  | String a s' =>
      if Ascii.eqb a sep then EmptyString :: Split s' sep
      else match Split s' sep with
           | piece :: rest => String a piece :: rest
           | [] => [String a EmptyString]
           end
  end.

(** What [Config.Set] takes from the standard library, as parameters:
    [strings.TrimSpace], and [strconv.ParseInt(val, 10, 0)] with [None] for
    its error. *)
Record Strconv := {
  TrimSpace : string -> string;
  ParseInt : string -> option Z;
}.

(** The errors of [Config.Set], by what they say. *)
Inductive SetError :=
| NotKeyValue (opt : string)      (* Options must be formatted as key=value *)
| EmptyValue (opt : string)       (* Option values cannot be empty *)
| BadCount (val : string)         (* failed to parse count *)
| UnknownOption (key : string).   (* unknow keep-alive option *)

(** The body of the loop of [Config.Set], for one option. *)
Definition setOption (lib : Strconv) (c : Config) (opt : string)
    : Config * option SetError :=
  match Split opt "=" with
  | [k; v] =>
      let key := TrimSpace lib k in
      let val := TrimSpace lib v in
      if len val =? 0 then (c, Some (EmptyValue opt))
      else if String.eqb key "idle_time" then
        ({| KeepAliveIdleTime := val;
            KeepAliveCount := KeepAliveCount c;
            KeepAliveInterval := KeepAliveInterval c |}, None)
      else if String.eqb key "count" then
        match ParseInt lib val with
        | None => (c, Some (BadCount val))
        | Some count =>
            ({| KeepAliveIdleTime := KeepAliveIdleTime c;
                KeepAliveCount := count;
                KeepAliveInterval := KeepAliveInterval c |}, None)
        end
      else if String.eqb key "interval" then
        ({| KeepAliveIdleTime := KeepAliveIdleTime c;
            KeepAliveCount := KeepAliveCount c;
            KeepAliveInterval := val |}, None)
      else (c, Some (UnknownOption k))
  | _ => (c, Some (NotKeyValue opt))
  end.

(** The loop of [Config.Set]: the first error ends it, with the
    configuration as the options before it left it. *)
Fixpoint setOptions (lib : Strconv) (c : Config) (opts : list string)
    : Config * option SetError :=
  match opts with
  | [] => (c, None)
  | opt :: rest =>
      match setOption lib c opt with
      | (c', Some err) => (c', Some err)
      | (c', None) => setOptions lib c' rest
      end
  end.

(** [Config.Set(opt)]; the configuration is updated in place, so the caller
    sees it also when an error is returned. *)
Definition Config_Set (lib : Strconv) (c : Config) (opt : string)
    : Config * option SetError :=
  setOptions lib c (Split opt ",").

End keepalive.

(** * Vocabulary of the properties *)

(** A name with no colon and no bracket in it: a host name or a port as they
    stand in ["host:port"]. *)
Definition plainName (s : string) : Prop :=
  GoStrings.IndexByte s ":"%char < 0
  /\ GoStrings.IndexByte s "["%char < 0
  /\ GoStrings.IndexByte s "]"%char < 0.

(** The events that close an endpoint at the end of a relay from [src] to
    [dst]. *)
Definition relayCloses (dst src : Endpoint) : list IOEvent :=
  ((if closeWriter dst then [CloseWrite dst] else [])
   ++ (if closeReader src then [CloseRead src] else [Close src]))%list.

Definition isCopyError (e : IOEvent) : bool :=
  match e with
  | LogCopyError _ _ => true
  | _ => false
  end.

(** The outcome of [Proxy] on a message it does not support: one log
    record, and the return. *)
Definition unsupportedProtocol (msg : proto.ControlMessage) : ForwardingProxy.Outcome :=
  ForwardingProxy.Returned
    [ForwardingProxy.Log
       [ForwardingProxy.LStr "level"; ForwardingProxy.LInt 0;
        ForwardingProxy.LStr "msg"; ForwardingProxy.LStr "unsupported protocol";
        ForwardingProxy.LStr "ctrlMsg"; ForwardingProxy.LMsg msg]].

(** Events that write to the sink. *)
Definition writesToSink (e : ForwardingProxy.Event) : bool :=
  match e with
  | ForwardingProxy.HttpError _ _
  | ForwardingProxy.ReverseProxyServeHTTP _
  | ForwardingProxy.ResponseWrite _ _
  | ForwardingProxy.Flush
  | ForwardingProxy.Relay ForwardingProxy.DestToSink _ => true
  | _ => false
  end.

(** Events that dial a destination, hand the request to the reverse proxy
    or relay bytes. *)
Definition dialsOrForwards (e : ForwardingProxy.Event) : bool :=
  match e with
  | ForwardingProxy.DialTimeout _ _ _
  | ForwardingProxy.ReverseProxyServeHTTP _
  | ForwardingProxy.Relay _ _
  | ForwardingProxy.Go _ => true
  | _ => false
  end.

(** The answer 407 Proxy Authentication Required. *)
Definition is407 (e : ForwardingProxy.Event) : bool :=
  match e with
  | ForwardingProxy.HttpError _ code => code =? http.StatusProxyAuthRequired
  | _ => false
  end.

(** What [ServeHTTP] does with a request once no credentials stand in the
    way: plain HTTP goes to the reverse proxy, anything else is tunnelled. *)
Definition dispatch (p : ForwardingProxy.ForwardingProxy) (env : ForwardingProxy.Env)
    (w : http.ResponseWriter) (r : http.Request) (rr : Endpoint)
    : ForwardingProxy.Outcome :=
  if String.eqb (http.Scheme (http.URL r)) "http"
  then ForwardingProxy.Returned [ForwardingProxy.ReverseProxyServeHTTP r]
  else ForwardingProxy.handleTunneling p env w r rr.

Definition dispatch2 (p : ForwardingProxy.ForwardingProxy) (env : ForwardingProxy.Env)
    (w : http.ResponseWriter) (r : http.Request) (rr : Endpoint)
    : ForwardingProxy.Outcome :=
  if String.eqb (http.Scheme (http.URL r)) "http"
  then ForwardingProxy.Returned [ForwardingProxy.ReverseProxyServeHTTP r]
  else ForwardingProxy2.handleTunneling p env w r rr.

(** The header of a request names credentials that the proxy turns down:
    there is no Proxy-Authorization header, or it does not parse, or the
    user or the password it holds is not the configured one. *)
Definition badCredentials (p : ForwardingProxy.ForwardingProxy) (r : http.Request) : Prop :=
  http.header r !! "Proxy-Authorization" = None
  \/ (exists user pass,
        ForwardingProxy.parseBasicProxyAuth
          (http.Get (http.header r) "Proxy-Authorization") = (user, pass, false))
  \/ (exists user pass,
        ForwardingProxy.parseBasicProxyAuth
          (http.Get (http.header r) "Proxy-Authorization") = (user, pass, true)
        /\ (user <> ForwardingProxy.AuthUser p \/ pass <> ForwardingProxy.AuthPass p)).

Definition isRelay (e : ForwardingProxy.Event) : bool :=
  match e with
  | ForwardingProxy.Relay _ _ => true
  | _ => false
  end.

Definition isPrintln (e : ForwardingProxy.Event) : bool :=
  match e with
  | ForwardingProxy.Println _ => true
  | _ => false
  end.

(** Neither an event of a relay nor the closing of a connection. *)
Definition beforeRelay (e : ForwardingProxy.Event) : bool :=
  match e with
  | ForwardingProxy.Relay _ _ | ForwardingProxy.ConnClose _ => false
  | _ => true
  end.

(** The order of an opened tunnel, as an observer sees it: first what leads
    to the tunnel, none of it a relay event or a close; then the response
    200 written to the sink and flushed; then the events of the two relays
    [bg] and [fg], interleaved; then the closing of the destination and of
    the source.  Diagnostics may be printed in between. *)
Definition tunnelOrder (bg fg : list ForwardingProxy.Event) (destConn rr : Endpoint)
    (t : list ForwardingProxy.Event) : Prop :=
  exists before dbg1 m dbg2,
    t = (before
         ++ [ForwardingProxy.ResponseWrite 200 "HTTP/1.1"; ForwardingProxy.Flush]
         ++ dbg1 ++ m ++ dbg2
         ++ [ForwardingProxy.ConnClose destConn; ForwardingProxy.ConnClose rr])%list
    /\ Forall (fun e => beforeRelay e = true) before
    /\ Forall (fun e => isPrintln e = true) dbg1
    /\ interleave bg fg m
    /\ Forall (fun e => isPrintln e = true) dbg2.

(** The relay from the destination to the sink, run by the goroutine that
    [handleTunneling] starts, and the relay from the source to the
    destination, run by [handleTunneling] itself. *)
Definition relayToSink (env : ForwardingProxy.Env) (destConn : Endpoint)
    : list ForwardingProxy.Event :=
  map (ForwardingProxy.Relay ForwardingProxy.DestToSink)
    (transfer (ForwardingProxy.ioCopy env) "src" (flushWriter "w") destConn).

Definition relayToDest (env : ForwardingProxy.Env) (destConn rr : Endpoint)
    : list ForwardingProxy.Event :=
  map (ForwardingProxy.Relay ForwardingProxy.SourceToDest)
    (transfer (ForwardingProxy.ioCopy env) "dst" destConn rr).

(** Every step of the handshake of a control connection succeeds: the
    certificate yields an identity, the identity is that of an allowed
    client, the client's host makes a request, the registry takes the host,
    and the probe over the new entry answers 200. *)
Definition handshakeSucceeds (s : Server.Server) (env : Server.Env)
    (pool : gmap string Server.Conn) (conn : Server.Conn) : Prop :=
  exists id client,
    Server.peerID env conn = inr id
    /\ Server.checkID s id = Some client
    /\ Server.NewRequest env http.MethodConnect (url (Server.Host client)) = None
    /\ Server.malformed env (Server.Host client) = false
    /\ Server.httpClientDo env (<[Server.Host client := conn]> pool)
         http.MethodConnect (url (Server.Host client)) = inr http.StatusOK.

(** The allowed client a control connection is matched with, if any. *)
Definition matched (s : Server.Server) (env : Server.Env) (conn : Server.Conn)
    (client : Server.AllowedClient) : Prop :=
  exists id, Server.peerID env conn = inr id /\ Server.checkID s id = Some client.



(** An accept error that tells of a closed listener. *)
Definition closedError (err : string) : bool :=
  GoStrings.Contains err Server.closedListener.

Definition acceptWarning (s : Server.Server) (format err : string) : Server.Event :=
  Server.Log Server.Warning format
    [Server.Network (Server.listener s); Server.ListenAddr (Server.listener s); err].

(** What [handleTunneling] does to a destination it has dialled, before it
    answers. *)
Definition tunnelSetup (p : ForwardingProxy.ForwardingProxy) (r : http.Request)
    (destConn : Endpoint) : list ForwardingProxy.Event :=
  [ForwardingProxy.DialTimeout "tcp" (http.Host r) (ForwardingProxy.DestDialTimeout p);
   ForwardingProxy.SetReadDeadline destConn (ForwardingProxy.DestReadTimeout p);
   ForwardingProxy.SetWriteDeadline destConn (ForwardingProxy.DestWriteTimeout p)].

(** The control message of the HTTP entry point for a request. *)
Definition entryMessage (r : http.Request) : Server.ControlMessage :=
  {| Server.Action := Server.RequestClientSession;
     Server.Protocol := Server.HTTPProtocol;
     Server.ForwardedFor := http.RemoteAddr r;
     Server.ForwardedBy := http.Host r;
     Server.URLPath := http.Path (http.URL r) |}.



(** ** Sample values *)

Definition tcpConn : Endpoint :=
  {| ep_name := "dest.example:443"; closeWriter := true; closeReader := true |}.

Definition streamBody : Endpoint :=
  {| ep_name := "stream"; closeWriter := false; closeReader := false |}.

Definition connectRequest (hdr : http.Header) : http.Request :=
  {| http.Method := "CONNECT";
     http.URL := {| http.Scheme := ""; http.URLHost := "dest.example:443"; http.Path := "" |};
     http.Host := "dest.example:443";
     http.header := hdr;
     http.RemoteAddr := "198.51.100.7:50000" |}.

Definition sampleEnv : ForwardingProxy.Env :=
  {| ForwardingProxy.sink := http.writer true;
     ForwardingProxy.ReadRequest := inr (connectRequest ∅);
     ForwardingProxy.setXForwardedFor := fun h addr => <["X-Forwarded-For" := [addr]]> h;
     ForwardingProxy.dial := fun _ _ _ => inr tcpConn;
     ForwardingProxy.ioCopy := fun _ _ => (0, None) |}.

Definition guardedProxy : ForwardingProxy.ForwardingProxy :=
  ForwardingProxy2.NewMultiForwardingProxy "Aladdin:open sesame".

Definition httpMessage : proto.ControlMessage :=
  {| proto.Action := "proxy";
     proto.ForwardedHost := "dest.example:443";
     proto.ForwardedProto := proto.HTTP;
     proto.RemoteAddr := "198.51.100.7:50000" |}.

Definition sampleConn : Server.Conn :=
  {| Server.RemoteAddr := "203.0.113.9:41000"; Server.LocalAddr := "192.0.2.1:4443" |}.

Definition sampleServer : Server.Server :=
  {| Server.config :=
       {| Server.Addr := ":4443";
          Server.AllowedClients :=
            [{| Server.ClientID := "client-x";
                Server.Host := "a.example";
                Server.Listeners := [] |}] |};
     Server.listener := {| Server.Network := "tcp"; Server.ListenAddr := ":4443" |} |}.

(** An environment in which the probe and every proxied request are
    answered with the status [status]. *)
Definition serverEnv (status : Z) : Server.Env :=
  {| Server.peerID := fun _ => inr "client-x";
     Server.NewRequest := fun _ _ => None;
     Server.setDeadline := fun _ => None;
     Server.malformed := fun host => String.eqb host "";
     Server.httpClientDo := fun pool _ target =>
       if String.eqb target "https://b.example" then inl "no connection for host"
       else inr status;
     Server.ReadResponse :=
       inr {| Server.StatusCode := status; Server.InnerHeader := ∅; Server.Body := None |};
     Server.ioCopy := fun _ _ => (0, None);
     Server.responseWriter :=
       {| ep_name := "w"; closeWriter := false; closeReader := false |} |}.

Definition getRequest (host : string) : http.Request :=
  {| http.Method := "GET";
     http.URL := {| http.Scheme := ""; http.URLHost := ""; http.Path := "/index.html" |};
     http.Host := host;
     http.header := ∅;
     http.RemoteAddr := "198.51.100.7:50000" |}.

Definition isLog (e : ForwardingProxy.Event) : bool :=
  match e with
  | ForwardingProxy.Log _ => true
  | _ => false
  end.

(** The second revision's proxy for the credentials ["user:pass"]. *)
Definition proxyFor (user pass : string) : ForwardingProxy.ForwardingProxy :=
  ForwardingProxy2.NewMultiForwardingProxy (user +:+ ":" +:+ pass).


(** The connections a loop accepts before an accept error that tells of a
    closed listener. *)
Fixpoint acceptedBeforeClose (accepts : list Server.Accepted) : list Server.Conn :=
  match accepts with
  | [] => []
  | Server.AcceptConn c :: rest => c :: acceptedBeforeClose rest
  | Server.AcceptError err :: rest =>
      if closedError err then [] else acceptedBeforeClose rest
  end.

(** The connection an event hands to [handleClient], and the host,
    connection and message an event hands to [proxyConn]. *)
Definition handedToClient (e : Server.Event) : option Server.Conn :=
  match e with
  | Server.GoHandleClient c => Some c
  | _ => None
  end.

Definition handedToProxy (e : Server.Event)
    : option (string * Server.Conn * Server.ControlMessage) :=
  match e with
  | Server.GoProxyConn host c msg => Some (host, c, msg)
  | _ => None
  end.

(** The control message of a client's listener for a connection. *)
Definition listenerMessage (l : Server.Listener) (c : Server.Conn)
    : Server.ControlMessage :=
  {| Server.Action := Server.RequestClientSession;
     Server.Protocol := Server.Network l;
     Server.ForwardedFor := Server.RemoteAddr c;
     Server.ForwardedBy := Server.LocalAddr c;
     Server.URLPath := "" |}.

(** The status an event writes to the caller of the HTTP entry point. *)
Definition statusWritten (e : Server.Event) : option Z :=
  match e with
  | Server.WriteHeader code | Server.HttpError _ code => Some code
  | _ => None
  end.

(** An event that writes to the caller of the HTTP entry point. *)
Definition writesResponse (e : Server.Event) : bool :=
  match e with
  | Server.CopyHeader _ | Server.WriteHeader _ | Server.Relay _
  | Server.HttpError _ _ => true
  | _ => false
  end.

Definition isPipeClose (e : Server.Event) : bool :=
  match e with
  | Server.PipeClose _ => true
  | _ => false
  end.

(** The deferred [c.Close()] of [proxyConn] itself. *)
Definition deferredClose (e : ProxyConn.Event) : bool :=
  match e with
  | ProxyConn.Ev (Server.ConnClose _) => true
  | _ => false
  end.

(** [src.Close()] in a [transfer]. *)
Definition isClose (e : IOEvent) : bool :=
  match e with
  | Close _ => true
  | _ => false
  end.

(** How often an event of [proxyConn] closes the public connection in full:
    the deferred [c.Close()] once, and the relay that reads from the
    connection as often as its [transfer] calls [Close] on its source.  The
    relay back to the connection closes the body of the response, not the
    connection. *)
Definition connCloses (e : ProxyConn.Event) : nat :=
  match e with
  | ProxyConn.Ev (Server.ConnClose _) => 1
  | ProxyConn.GoTransfer body => length (filter isClose body)
  | _ => 0
  end.

(** An event of [proxyConn] that relays the response to the public
    connection or waits for the other relay. *)

Definition relaysBack (e : ProxyConn.Event) : bool :=
  match e with
  | ProxyConn.Ev (Server.Relay _) | ProxyConn.Ev Server.RecvDone => true
  | _ => false
  end.

(** An option that [Config.Set] takes: a key and a value around one ['='],
    the value not empty once trimmed, the trimmed key one of the three
    known keys, and a count that parses. *)
Definition validOption (lib : keepalive.Strconv) (opt : string) : Prop :=
  exists k v,
    keepalive.Split opt "=" = [k; v]
    /\ GoStrings.len (keepalive.TrimSpace lib v) <> 0
    /\ (keepalive.TrimSpace lib k = "idle_time"
        \/ (keepalive.TrimSpace lib k = "count"
            /\ keepalive.ParseInt lib (keepalive.TrimSpace lib v) <> None)
        \/ keepalive.TrimSpace lib k = "interval").

(** An option that names the key [key]. *)
Definition namesKey (lib : keepalive.Strconv) (key opt : string) : Prop :=
  exists k v, keepalive.Split opt "=" = [k; v] /\ keepalive.TrimSpace lib k = key.

(** A [Strconv] for the samples: it trims blanks and reads unsigned decimal
    numbers. *)
Fixpoint trimBlanks (s : list ascii) : list ascii :=
  match s with
  | " "%char :: s' => trimBlanks s'
  | _ => s
  end.

Fixpoint readDigits (acc : Z) (s : list ascii) : option Z :=
  match s with
  | [] => Some acc
  | c :: s' =>
      let n := Z.of_N (N_of_ascii c) in
      if (48 <=? n) && (n <=? 57) then readDigits (10 * acc + (n - 48)) s' else None
  end.

Definition sampleLib : keepalive.Strconv :=
  {| keepalive.TrimSpace := fun s =>
       string_of_list_ascii
         (rev (trimBlanks (rev (trimBlanks (list_ascii_of_string s)))));
     keepalive.ParseInt := fun s =>
       match list_ascii_of_string s with
       | [] => None
       | digits => readDigits 0 digits
       end |}.

Definition defaultConfig : keepalive.Config :=
  {| keepalive.KeepAliveIdleTime := "15m0s";
     keepalive.KeepAliveCount := 8;
     keepalive.KeepAliveInterval := "5s" |}.


(** A public connection without [CloseRead], and a pipe whose round trip to
    [b.example] fails. *)
Definition untilEOFEnv : ProxyConn.Env :=
  {| ProxyConn.server := serverEnv 200;
     ProxyConn.connEndpoint := fun _ => streamBody;
     ProxyConn.pipeWriter := tcpConn;
     ProxyConn.respBody := streamBody |}.

(** * Properties *)

(** ** Strings *)

Section StringFacts.
Import GoStrings.

Lemma len_nonneg (s : string) : 0 <= len s.
Proof. unfold len. lia. Qed.

Lemma len_String (a : ascii) (s : string) : len (String a s) = len s + 1.
Proof. unfold len. cbn [String.length]. lia. Qed.

Lemma append_String (a : ascii) (p rest : string) :
  String a p +:+ rest = String a (p +:+ rest).
Proof. reflexivity. Qed.

Lemma append_empty (rest : string) : "" +:+ rest = rest.
Proof. reflexivity. Qed.

Lemma HasPrefix_app (p rest : string) : HasPrefix (p +:+ rest) p = true.
Proof.
  induction p as [|a p IH]; [reflexivity|].
  rewrite append_String. cbn [HasPrefix].
  now rewrite Ascii.eqb_refl, IH.
Qed.

Lemma HasPrefix_inv (p s : string) :
  HasPrefix s p = true -> exists rest, s = p +:+ rest.
Proof.
  revert s. induction p as [|a p IH]; intros s H.
  - now exists s.
  - destruct s as [|b s]; cbn [HasPrefix] in H; [discriminate|].
    apply andb_true_iff in H as [Hb Hs].
    apply Ascii.eqb_eq in Hb. subst b.
    destruct (IH _ Hs) as [rest ->]. now exists rest.
Qed.

Lemma dropn_app (p rest : string) : dropn (String.length p) (p +:+ rest) = rest.
Proof.
  induction p as [|a p IH]; [reflexivity|].
  rewrite append_String. exact IH.
Qed.

Lemma taken_app (p rest : string) : taken (String.length p) (p +:+ rest) = p.
Proof.
  induction p as [|a p IH]; [reflexivity|].
  rewrite append_String. cbn [String.length taken]. now rewrite IH.
Qed.

Lemma sliceFrom_app (p rest : string) : sliceFrom (p +:+ rest) (len p) = rest.
Proof. unfold sliceFrom, len. rewrite Nat2Z.id. apply dropn_app. Qed.

Lemma sliceTo_app (p rest : string) : sliceTo (p +:+ rest) (len p) = p.
Proof. unfold sliceTo, len. rewrite Nat2Z.id. apply taken_app. Qed.

Lemma IndexByte_range (s : string) (c : ascii) :
  IndexByte s c = -1 \/ 0 <= IndexByte s c < len s.
Proof.
  induction s as [|a s IH]; cbn [IndexByte]; [now left|].
  rewrite len_String. destruct (Ascii.eqb a c).
  - right. pose proof (len_nonneg s). lia.
  - destruct (Z.ltb_spec (IndexByte s c) 0); lia.
Qed.

(** [IndexByte] is negative exactly when the byte does not occur. *)
Lemma IndexByte_absent (s : string) (c : ascii) :
  IndexByte s c < 0 <-> ~ In c (list_ascii_of_string s).
Proof.
  induction s as [|a s IH]; cbn [IndexByte list_ascii_of_string In].
  - split; [tauto | lia].
  - destruct (Ascii.eqb_spec a c) as [->|Hne].
    + split; [lia | tauto].
    + pose proof (IndexByte_range s c).
      destruct (Z.ltb_spec (IndexByte s c) 0); intuition lia.
Qed.

Lemma LastIndexByte_range (s : string) (c : ascii) :
  LastIndexByte s c = -1 \/ 0 <= LastIndexByte s c < len s.
Proof.
  induction s as [|a s IH]; cbn [LastIndexByte]; [now left|].
  rewrite len_String. pose proof (len_nonneg s).
  destruct (Z.leb_spec 0 (LastIndexByte s c)); [lia|].
  destruct (Ascii.eqb a c); lia.
Qed.

Lemma LastIndexByte_absent (s : string) (c : ascii) :
  IndexByte s c < 0 -> LastIndexByte s c = -1.
Proof.
  induction s as [|a s IH]; cbn [IndexByte LastIndexByte]; [reflexivity|].
  pose proof (IndexByte_range s c).
  destruct (Ascii.eqb a c); [lia|].
  destruct (Z.ltb_spec (IndexByte s c) 0); [|lia].
  intros _. rewrite IH by lia. reflexivity.
Qed.

(** The last [c] of [h ++ c ++ p] is the one in the middle when [p] has none. *)
Lemma LastIndexByte_middle (h p : string) (c : ascii) :
  IndexByte p c < 0 -> LastIndexByte (h +:+ String c p) c = len h.
Proof.
  intros Hp. induction h as [|a h IH].
  - rewrite append_empty. cbn [LastIndexByte].
    rewrite (LastIndexByte_absent _ _ Hp). cbn. now rewrite Ascii.eqb_refl.
  - rewrite append_String.
    cbn [LastIndexByte]. rewrite IH, len_String.
    pose proof (len_nonneg h). destruct (Z.leb_spec 0 (len h)); lia.
Qed.

Lemma IndexByte_app_absent (h t : string) (c : ascii) :
  IndexByte h c < 0 -> IndexByte t c < 0 -> IndexByte (h +:+ t) c < 0.
Proof.
  rewrite !IndexByte_absent. intros Hh Ht.
  induction h as [|a h IH]; [assumption|].
  rewrite append_String. cbn [list_ascii_of_string In] in *. intuition.
Qed.

Lemma IndexByte_String_other (a c : ascii) (s : string) :
  a <> c -> IndexByte s c < 0 -> IndexByte (String a s) c < 0.
Proof.
  intros Hne Hs. cbn. destruct (Ascii.eqb_spec a c); [contradiction|].
  destruct (Z.ltb_spec (IndexByte s c) 0); lia.
Qed.

End StringFacts.

(** ** Proxy-Authorization parsing *)

Section ProxyAuthorization.
Import GoStrings.

Lemma encode_aladdin :
  Base64.EncodeToString "Aladdin:open sesame" = "QWxhZGRpbjpvcGVuIHNlc2FtZQ==".
Proof. vm_compute. reflexivity. Qed.

(** The two revisions parse alike. *)
Lemma parseBasicProxyAuth_agree (authz : string) :
  ForwardingProxy2.parseBasicProxyAuth authz
  = ForwardingProxy.parseBasicProxyAuth authz.
Proof. reflexivity. Qed.

Lemma parseBasicProxyAuth_no_prefix (authz : string) :
  (~ exists rest, authz = "Basic " +:+ rest) ->
  ForwardingProxy.parseBasicProxyAuth authz = ("", "", false).
Proof.
  intros Hno. unfold ForwardingProxy.parseBasicProxyAuth.
  destruct (HasPrefix authz "Basic ") eqn:Hp; [|reflexivity].
  destruct Hno. now apply HasPrefix_inv.
Qed.

Lemma parseBasicProxyAuth_prefixed (rest : string) :
  ForwardingProxy.parseBasicProxyAuth ("Basic " +:+ rest)
  = match Base64.DecodeString rest with
    | None => ("", "", false)
    | Some cs =>
        if IndexByte cs ":"%char <? 0 then ("", "", false)
        else (sliceTo cs (IndexByte cs ":"%char),
              sliceFrom cs (IndexByte cs ":"%char + 1), true)
    end.
Proof.
  unfold ForwardingProxy.parseBasicProxyAuth.
  rewrite HasPrefix_app, sliceFrom_app. reflexivity.
Qed.

(** C2: [parseBasicProxyAuth] applied to ["Basic "] followed by the standard
    base64 encoding of ["Aladdin:open sesame"] returns the user ["Aladdin"]
    and the password ["open sesame"]; applied to a string that lacks the
    prefix ["Basic "], or whose suffix is not valid base64, or whose decoded
    suffix holds no colon, it returns empty strings and [false].  Both
    revisions of the function do so. *)
Theorem parseBasicProxyAuth_spec :
  ForwardingProxy.parseBasicProxyAuth
    ("Basic " +:+ Base64.EncodeToString "Aladdin:open sesame")
  = ("Aladdin", "open sesame", true)
  /\ (forall authz : string,
        (~ exists rest, authz = "Basic " +:+ rest)
        \/ (exists rest, authz = "Basic " +:+ rest
                         /\ Base64.DecodeString rest = None)
        \/ (exists rest cs, authz = "Basic " +:+ rest
                            /\ Base64.DecodeString rest = Some cs
                            /\ ~ In ":"%char (list_ascii_of_string cs)) ->
        ForwardingProxy.parseBasicProxyAuth authz = ("", "", false))
  /\ (forall authz : string,
        ForwardingProxy2.parseBasicProxyAuth authz
        = ForwardingProxy.parseBasicProxyAuth authz).
Proof.
  split; [vm_compute; reflexivity|]. split; [|exact parseBasicProxyAuth_agree].
  intros authz [Hno | [(rest & -> & Hd) | (rest & cs & -> & Hd & Hc)]].
  - now apply parseBasicProxyAuth_no_prefix.
  - now rewrite parseBasicProxyAuth_prefixed, Hd.
  - rewrite parseBasicProxyAuth_prefixed, Hd.
    apply IndexByte_absent in Hc.
    destruct (Z.ltb_spec (IndexByte cs ":"%char) 0); [reflexivity | lia].
Qed.

(** The three ways to fail, each at a header that does occur. *)
Lemma parseBasicProxyAuth_spec_witness :
  ForwardingProxy.parseBasicProxyAuth "Bearer QWxhZGRpbjpvcGVuIHNlc2FtZQ==" = ("", "", false)
  /\ ForwardingProxy.parseBasicProxyAuth "Basic QWxhZGRpbjpvcGVuIHNlc2FtZQ" = ("", "", false)
  /\ ForwardingProxy.parseBasicProxyAuth "Basic QWxhZGRpbg==" = ("", "", false).
Proof.
  pose proof (proj1 (proj2 parseBasicProxyAuth_spec)) as H.
  split; [|split]; apply H.
  - left. intros [rest Hrest]. discriminate Hrest.
  - right; left. exists "QWxhZGRpbjpvcGVuIHNlc2FtZQ". split; reflexivity.
  - right; right. exists "QWxhZGRpbg==", "Aladdin".
    split; [reflexivity|]. split; [reflexivity|].
    cbn. intuition discriminate.
Defined.

End ProxyAuthorization.

(** ** The routing key of the HTTP entry point *)

Section RoutingKey.
Import GoStrings.

Lemma sliceFrom_middle (h p : string) (c : ascii) :
  sliceFrom (h +:+ String c p) (len h + 1) = p.
Proof.
  unfold sliceFrom, len.
  replace (Z.to_nat (Z.of_nat (String.length h) + 1)) with (S (String.length h)) by lia.
  induction h as [|a h IH]; [reflexivity|].
  rewrite append_String. exact IH.
Qed.

Lemma byteAt_head (a : ascii) (s : string) : byteAt (String a s) 0 = a.
Proof. reflexivity. Qed.

(** A plain host followed by a colon and a plain port splits at the colon. *)
Lemma SplitHostPort_plain (h p : string) :
  plainName h -> plainName p ->
  Net.SplitHostPort (h +:+ ":" +:+ p) = Some (h, p).
Proof.
  intros (Hhc & Hhl & Hhr) (Hpc & Hpl & Hpr).
  change (h +:+ ":" +:+ p) with (h +:+ String ":" p).
  unfold Net.SplitHostPort.
  rewrite (LastIndexByte_middle h p ":" Hpc).
  pose proof (len_nonneg h) as Hlen.
  destruct (Z.ltb_spec (len h) 0) as [|_]; [lia|].
  assert (Hb : Ascii.eqb (byteAt (h +:+ String ":" p) 0) "[" = false).
  { destruct h as [|a h]; [reflexivity|].
    rewrite append_String, byteAt_head.
    apply Ascii.eqb_neq. intros ->. cbn in Hhl. lia. }
  rewrite Hb, sliceTo_app.
  destruct (Z.leb_spec 0 (IndexByte h ":")) as [|_]; [lia|].
  cbn [negb]. change (sliceFrom (h +:+ String ":" p) 0) with (h +:+ String ":" p).
  assert (Hl : IndexByte (h +:+ String ":" p) "[" < 0).
  { apply IndexByte_app_absent; [assumption|].
    apply IndexByte_String_other; [discriminate | assumption]. }
  assert (Hr : IndexByte (h +:+ String ":" p) "]" < 0).
  { apply IndexByte_app_absent; [assumption|].
    apply IndexByte_String_other; [discriminate | assumption]. }
  destruct (Z.leb_spec 0 (IndexByte (h +:+ String ":" p) "[")) as [|_]; [lia|].
  destruct (Z.leb_spec 0 (IndexByte (h +:+ String ":" p) "]")) as [|_]; [lia|].
  now rewrite sliceFrom_middle.
Qed.

Lemma SplitHostPort_no_colon (s : string) :
  IndexByte s ":" < 0 -> Net.SplitHostPort s = None.
Proof.
  intros H. unfold Net.SplitHostPort.
  now rewrite (LastIndexByte_absent _ _ H).
Qed.

Lemma trimPort_unsplit (s : string) :
  Net.SplitHostPort s = None -> Server.trimPort s = s.
Proof. intros H. unfold Server.trimPort. now rewrite H. Qed.

Lemma trimPort_plain (h p : string) :
  h <> "" -> plainName h -> plainName p ->
  Server.trimPort (h +:+ ":" +:+ p) = h.
Proof.
  intros Hne Hh Hp. unfold Server.trimPort.
  rewrite (SplitHostPort_plain h p Hh Hp).
  destruct (String.eqb_spec h ""); [contradiction | reflexivity].
Qed.

(** The key of a plain host with a plain port is the host, which is also
    the key of the host alone; what [SplitHostPort] does not split comes
    back unchanged. *)
Lemma trimPort_plain_key :
  (forall h p : string,
      h <> "" -> plainName h -> plainName p ->
      Server.trimPort (h +:+ ":" +:+ p) = h
      /\ Server.trimPort h = h
      /\ forall pool : gmap string Server.Conn,
          pool !! Server.trimPort (h +:+ ":" +:+ p) = pool !! Server.trimPort h)
  /\ (forall s : string, Net.SplitHostPort s = None -> Server.trimPort s = s)
  /\ Server.trimPort "a.example:8080" = Server.trimPort "a.example".
Proof.
  split; [|split; [exact trimPort_unsplit | reflexivity]].
  intros h p Hne Hh Hp.
  assert (H1 := trimPort_plain h p Hne Hh Hp).
  assert (H2 : Server.trimPort h = h).
  { apply trimPort_unsplit, SplitHostPort_no_colon, Hh. }
  split; [assumption|]. split; [assumption|].
  intros pool. now rewrite H1, H2.
Qed.

(** C10 as stated fails at a bracketed host, which is a well-formed
    host and port for [SplitHostPort]: the brackets are stripped with the
    port, and the key differs from the key of the host alone.  It fails at
    an empty host too, whose port stays. *)
Lemma trimPort_bracketed_counterexample :
  Net.SplitHostPort ("[::1]" +:+ ":" +:+ "80") = Some ("::1", "80")
  /\ Server.trimPort ("[::1]" +:+ ":" +:+ "80") <> "[::1]"
  /\ Server.trimPort ("[::1]" +:+ ":" +:+ "80") <> Server.trimPort "[::1]"
  /\ Net.SplitHostPort ("" +:+ ":" +:+ "80") = Some ("", "80")
  /\ Server.trimPort ("" +:+ ":" +:+ "80") <> "".
Proof. repeat split; vm_compute; congruence. Qed.

End RoutingKey.

(** ** The relay primitive *)

Section RelayPrimitive.

Variable ioCopy : Endpoint -> Endpoint -> CopyResult.
Variables (side : string) (dst src : Endpoint).

Lemma transfer_unfold :
  transfer ioCopy side dst src
  = (Copy dst src (fst (ioCopy dst src))
     :: match snd (ioCopy dst src) with
        | Some e => [LogCopyError side e]
        | None => []
        end
     ++ relayCloses dst src
     ++ [LogCopied (fst (ioCopy dst src)) side])%list.
Proof.
  unfold transfer, relayCloses. destruct (ioCopy dst src) as [n err].
  cbn [fst snd]. now rewrite <- !app_assoc.
Qed.

Lemma transfer_closes : filter isClosing (transfer ioCopy side dst src) = relayCloses dst src.
Proof.
  rewrite transfer_unfold. unfold relayCloses.
  destruct (snd (ioCopy dst src)), (closeWriter dst), (closeReader src); reflexivity.
Qed.

End RelayPrimitive.

(** What [transfer] closes, and what a copy error adds. *)
Lemma transfer_closing (ioCopy : Endpoint -> Endpoint -> CopyResult)
    (side : string) (dst src : Endpoint) :
  let t := transfer ioCopy side dst src in
  filter isClosing t = relayCloses dst src
  /\ (closeWriter dst = true -> In (CloseWrite dst) t)
  /\ (forall e, In (Close e) t -> e = src /\ closeReader src = false)
  /\ (closeReader src = true -> In (CloseRead src) t)
  /\ (closeReader src = false -> In (Close src) t)
  /\ (forall n err,
        ioCopy dst src = (n, Some err) ->
        In (LogCopyError side err) t
        /\ filter (fun e => negb (isCopyError e)) t
           = transfer (fun _ _ => (n, None)) side dst src).
Proof.
  intros t. subst t. split; [apply transfer_closes|].
  rewrite transfer_unfold. unfold relayCloses.
  repeat split.
  - intros ->. destruct (snd (ioCopy dst src)), (closeReader src); cbn; tauto.
  - destruct (snd (ioCopy dst src)), (closeWriter dst), (closeReader src);
      cbn in H; intuition congruence.
  - destruct (snd (ioCopy dst src)), (closeWriter dst), (closeReader src);
      cbn in H; intuition congruence.
  - intros ->. destruct (snd (ioCopy dst src)), (closeWriter dst); cbn; tauto.
  - intros ->. destruct (snd (ioCopy dst src)), (closeWriter dst); cbn; tauto.
  - rewrite H. cbn. tauto.
  - rewrite H. unfold transfer. cbn [fst snd].
    destruct (closeWriter dst), (closeReader src); reflexivity.
Qed.

(** C5: [transfer] copies first, and when the copy has ended, at the end of
    the stream or on an error, it half-closes [dst] for writing if [dst]
    supports that and does not close it otherwise, then half-closes [src]
    for reading if [src] supports that and fully closes it otherwise;
    nothing else is closed, and nothing is closed before the copy.  A copy
    error adds a log record, right after the copy, and changes nothing
    else: the closes are those of a copy that ended without error, and
    [transfer] has no result through which the error could reach the
    caller. *)
Theorem transfer_spec (ioCopy : Endpoint -> Endpoint -> CopyResult)
    (side : string) (dst src : Endpoint) :
  let t := transfer ioCopy side dst src in
  filter isClosing t = relayCloses dst src
  /\ (closeWriter dst = true -> In (CloseWrite dst) t)
  /\ (forall e, In (Close e) t -> e = src /\ closeReader src = false)
  /\ (closeReader src = true -> In (CloseRead src) t)
  /\ (closeReader src = false -> In (Close src) t)
  /\ (forall n err,
        ioCopy dst src = (n, Some err) ->
        In (LogCopyError side err) t
        /\ filter (fun e => negb (isCopyError e)) t
           = transfer (fun _ _ => (n, None)) side dst src)
  /\ (forall n err,
        ioCopy dst src = (n, err) ->
        t = (Copy dst src n
             :: match err with
                | Some e => [LogCopyError side e]
                | None => []
                end
             ++ (if closeWriter dst then [CloseWrite dst] else [])
             ++ (if closeReader src then [CloseRead src] else [Close src])
             ++ [LogCopied n side])%list)
  /\ (forall before e after,
        t = (before ++ e :: after)%list -> isClosing e = true ->
        exists n between, before = (Copy dst src n :: between)%list).
Proof.
  intros t.
  destruct (transfer_closing ioCopy side dst src) as (H1 & H2 & H3 & H4 & H5 & H6).
  fold t in H1, H2, H3, H4, H5, H6.
  repeat (split; [assumption|]). split.
  - intros n err Hcopy. subst t. unfold transfer. rewrite Hcopy. reflexivity.
  - intros before e after Ht He. subst t. rewrite transfer_unfold in Ht.
    destruct before as [|e0 before].
    + cbn [app] in Ht. injection Ht as <- _. discriminate He.
    + cbn [app] in Ht. injection Ht as <- _. now eexists _, _.
Qed.

Lemma transfer_spec_witness :
  In (CloseWrite tcpConn) (transfer (fun _ _ => (7, Some "reset")) "dst" tcpConn streamBody)
  /\ In (Close streamBody) (transfer (fun _ _ => (7, Some "reset")) "dst" tcpConn streamBody).
Proof.
  pose proof (transfer_spec (fun _ _ => (7, Some "reset")) "dst" tcpConn streamBody) as H.
  cbv zeta in H. destruct H as (_ & Hw & _ & _ & Hc & _).
  split; [apply Hw | apply Hc]; reflexivity.
Defined.

(** ** The forwarding proxy: protocols *)

Section Protocols.
Import ForwardingProxy.

Variables (p : ForwardingProxy) (env : Env) (r : Endpoint).

Lemma Proxy_rejects (msg : proto.ControlMessage) :
  proto.ForwardedProto msg <> proto.HTTPCONNECT ->
  Proxy p env r msg = unsupportedProtocol msg
  /\ ForwardingProxy2.Proxy p env r msg = unsupportedProtocol msg.
Proof.
  intros Hne. unfold Proxy, ForwardingProxy2.Proxy.
  destruct (String.eqb_spec (proto.ForwardedProto msg) proto.HTTPCONNECT);
    [contradiction | split; reflexivity].
Qed.

Lemma Proxy_accepts (msg : proto.ControlMessage) :
  proto.ForwardedProto msg = proto.HTTPCONNECT ->
  Proxy p env r msg <> unsupportedProtocol msg
  /\ ForwardingProxy2.Proxy p env r msg <> unsupportedProtocol msg.
Proof.
  intros He. unfold Proxy, ForwardingProxy2.Proxy, unsupportedProtocol.
  rewrite He, String.eqb_refl. cbn [negb].
  unfold ServeHTTP, ForwardingProxy2.ServeHTTP.
  split.
  - destruct (sink env), (ReadRequest env); cbn [app]; try congruence;
      match goal with
      | |- after _ (after _ ?o) <> _ => destruct o; cbn; congruence
      end.
  - destruct (sink env), (ReadRequest env); cbn [app]; try congruence;
      match goal with
      | |- after _ (after _ ?o) <> _ => destruct o; cbn; congruence
      end.
Qed.

End Protocols.

(** C1, as the code has it: [Proxy] rejects every message whose protocol is
    not HTTP-CONNECT; it logs, writes nothing to the sink and returns.
    HTTP-CONNECT is the only protocol it goes on with.  Both revisions of
    [Proxy] do so. *)
Theorem Proxy_supports_only_connect (p : ForwardingProxy.ForwardingProxy)
    (env : ForwardingProxy.Env) (r : Endpoint) (msg : proto.ControlMessage) :
  (proto.ForwardedProto msg <> proto.HTTPCONNECT ->
   ForwardingProxy.Proxy p env r msg = unsupportedProtocol msg
   /\ ForwardingProxy2.Proxy p env r msg = unsupportedProtocol msg)
  /\ (proto.ForwardedProto msg = proto.HTTPCONNECT ->
      ForwardingProxy.Proxy p env r msg <> unsupportedProtocol msg
      /\ ForwardingProxy2.Proxy p env r msg <> unsupportedProtocol msg)
  /\ existsb writesToSink
       (ForwardingProxy.flat (ForwardingProxy.events (unsupportedProtocol msg))) = false.
Proof.
  split; [apply Proxy_rejects|]. split; [apply Proxy_accepts | reflexivity].
Qed.

Lemma Proxy_supports_only_connect_witness :
  ForwardingProxy.Proxy guardedProxy sampleEnv streamBody
    {| proto.Action := "proxy"; proto.ForwardedHost := "dest.example:443";
       proto.ForwardedProto := proto.TCP; proto.RemoteAddr := "198.51.100.7:50000" |}
  = unsupportedProtocol
      {| proto.Action := "proxy"; proto.ForwardedHost := "dest.example:443";
         proto.ForwardedProto := proto.TCP; proto.RemoteAddr := "198.51.100.7:50000" |}.
Proof.
  apply (proj1 (Proxy_supports_only_connect guardedProxy sampleEnv streamBody _)).
  discriminate.
Defined.

(** C1 as stated fails: a message whose protocol is HTTP is rejected as
    unsupported, like any protocol other than HTTP-CONNECT. *)
Lemma Proxy_rejects_http_counterexample :
  proto.ForwardedProto httpMessage = proto.HTTP
  /\ ForwardingProxy.Proxy guardedProxy sampleEnv streamBody httpMessage
     = unsupportedProtocol httpMessage
  /\ ForwardingProxy2.Proxy guardedProxy sampleEnv streamBody httpMessage
     = unsupportedProtocol httpMessage.
Proof. repeat split. Qed.

(** ** The forwarding proxy: credentials *)

Section Credentials.
Import ForwardingProxy.

Variables (p : ForwardingProxy) (env : Env) (w : http.ResponseWriter).
Variables (r : http.Request) (rr : Endpoint).

Lemma events_after (t : list Event) (o : Outcome) :
  events (after t o) = (t ++ events o)%list.
Proof. now destruct o. Qed.

Lemma flat_app (t1 t2 : list Event) : flat (t1 ++ t2) = (flat t1 ++ flat t2)%list.
Proof. apply flat_map_app. Qed.

Lemma Get_absent (h : http.Header) (key : string) :
  h !! key = None -> http.Get h key = "".
Proof. intros H. unfold http.Get. now rewrite H. Qed.

(** The test of [ServeHTTP] succeeds on credentials that are turned down. *)
Lemma badCredentials_test :
  badCredentials p r ->
  (let '(user, pass, ok) :=
     parseBasicProxyAuth (http.Get (http.header r) "Proxy-Authorization") in
   negb ok || negb (String.eqb user (AuthUser p))
   || negb (String.eqb pass (AuthPass p))) = true.
Proof.
  intros [Habsent | [(user & pass & Hparse) | (user & pass & Hparse & Hne)]].
  - now rewrite (Get_absent _ _ Habsent).
  - now rewrite Hparse.
  - rewrite Hparse. cbn [negb orb].
    destruct (String.eqb_spec user (AuthUser p)), (String.eqb_spec pass (AuthPass p));
      try reflexivity.
    tauto.
Qed.

Lemma ServeHTTP_rejects :
  AuthUser p <> "" -> AuthPass p <> "" -> badCredentials p r ->
  ServeHTTP p env w r rr
  = after [Log [LStr "Incoming request host"; LStr (http.Host r)]]
      (httpError w "Proxy Authentication Required" 407)
  /\ ForwardingProxy2.ServeHTTP p env w r rr
     = after [Log [LStr "Incoming request host"; LStr (http.Host r);
                   LHeader (http.header r)]]
         (httpError w "Proxy Authentication Required" 407).
Proof.
  intros Hu Hp Hbad. apply badCredentials_test in Hbad.
  unfold ServeHTTP, ForwardingProxy2.ServeHTTP.
  change ForwardingProxy2.parseBasicProxyAuth with parseBasicProxyAuth.
  destruct (String.eqb_spec (AuthUser p) ""); [contradiction|].
  destruct (String.eqb_spec (AuthPass p) ""); [contradiction|].
  cbn [negb andb].
  destruct (parseBasicProxyAuth _) as [[user pass] ok].
  rewrite Hbad. split; reflexivity.
Qed.

Lemma httpError_quiet (error : string) (code : Z) :
  Forall (fun e => dialsOrForwards e = false) (flat (events (httpError w error code))).
Proof. destruct w; cbn; repeat constructor. Qed.

End Credentials.

(** C3: with proxy credentials configured, a request whose
    Proxy-Authorization header is absent, does not parse or names another
    user or password is answered with 407 Proxy Authentication Required and
    [ServeHTTP] returns: no destination is dialled and the request is
    neither forwarded nor tunnelled.  Both revisions of [ServeHTTP] do so. *)
Theorem ServeHTTP_proxy_auth_required (p : ForwardingProxy.ForwardingProxy)
    (env : ForwardingProxy.Env) (flusher : bool) (r : http.Request) (rr : Endpoint) :
  ForwardingProxy.AuthUser p <> "" ->
  ForwardingProxy.AuthPass p <> "" ->
  badCredentials p r ->
  ForwardingProxy.ServeHTTP p env (http.writer flusher) r rr
  = ForwardingProxy.Returned
      [ForwardingProxy.Log
         [ForwardingProxy.LStr "Incoming request host";
          ForwardingProxy.LStr (http.Host r)];
       ForwardingProxy.HttpError
         (http.StatusText http.StatusProxyAuthRequired) http.StatusProxyAuthRequired]
  /\ ForwardingProxy2.ServeHTTP p env (http.writer flusher) r rr
     = ForwardingProxy.Returned
         [ForwardingProxy.Log
            [ForwardingProxy.LStr "Incoming request host";
             ForwardingProxy.LStr (http.Host r);
             ForwardingProxy.LHeader (http.header r)];
          ForwardingProxy.HttpError
            (http.StatusText http.StatusProxyAuthRequired) http.StatusProxyAuthRequired]
  /\ Forall (fun e => dialsOrForwards e = false)
       (ForwardingProxy.flat
          (ForwardingProxy.events
             (ForwardingProxy.ServeHTTP p env (http.writer flusher) r rr)))
  /\ Forall (fun e => dialsOrForwards e = false)
       (ForwardingProxy.flat
          (ForwardingProxy.events
             (ForwardingProxy2.ServeHTTP p env (http.writer flusher) r rr))).
Proof.
  intros Hu Hp Hbad.
  destruct (ServeHTTP_rejects p env (http.writer flusher) r rr Hu Hp Hbad) as [H1 H2].
  rewrite H1, H2. repeat split; repeat constructor.
Qed.

Lemma ServeHTTP_proxy_auth_required_witness :
  ForwardingProxy.ServeHTTP guardedProxy sampleEnv (http.writer true)
    (connectRequest ∅) streamBody
  = ForwardingProxy.Returned
      [ForwardingProxy.Log
         [ForwardingProxy.LStr "Incoming request host";
          ForwardingProxy.LStr "dest.example:443"];
       ForwardingProxy.HttpError "Proxy Authentication Required" 407].
Proof.
  refine (proj1 (ServeHTTP_proxy_auth_required guardedProxy sampleEnv true
                   (connectRequest ∅) streamBody _ _ _)).
  - discriminate.
  - discriminate.
  - left. reflexivity.
Defined.

(** Whatever the writer, even the nil one, nothing is dialled or forwarded. *)
Lemma ServeHTTP_rejected_quiet (p : ForwardingProxy.ForwardingProxy)
    (env : ForwardingProxy.Env) (w : http.ResponseWriter) (r : http.Request)
    (rr : Endpoint) :
  ForwardingProxy.AuthUser p <> "" ->
  ForwardingProxy.AuthPass p <> "" ->
  badCredentials p r ->
  Forall (fun e => dialsOrForwards e = false)
    (ForwardingProxy.flat
       (ForwardingProxy.events (ForwardingProxy.ServeHTTP p env w r rr)))
  /\ Forall (fun e => dialsOrForwards e = false)
       (ForwardingProxy.flat
          (ForwardingProxy.events (ForwardingProxy2.ServeHTTP p env w r rr))).
Proof.
  intros Hu Hp Hbad.
  destruct (ServeHTTP_rejects p env w r rr Hu Hp Hbad) as [H1 H2].
  rewrite H1, H2, !events_after, !flat_app, !Forall_app.
  repeat split; try apply httpError_quiet; repeat constructor.
Qed.

Section NoCredentials.
Import ForwardingProxy.

Variables (p : ForwardingProxy) (env : Env) (w : http.ResponseWriter).
Variables (r : http.Request) (rr : Endpoint).

Lemma ServeHTTP_unguarded :
  AuthUser p = "" \/ AuthPass p = "" ->
  ServeHTTP p env w r rr
  = after [Log [LStr "Incoming request host"; LStr (http.Host r)]]
      (dispatch p env w r rr)
  /\ ForwardingProxy2.ServeHTTP p env w r rr
     = after [Log [LStr "Incoming request host"; LStr (http.Host r);
                   LHeader (http.header r)]]
         (dispatch2 p env w r rr).
Proof.
  intros H. unfold ServeHTTP, ForwardingProxy2.ServeHTTP, dispatch, dispatch2.
  destruct H as [-> | ->]; cbn [String.eqb negb andb];
    rewrite ?andb_false_r; split; reflexivity.
Qed.

Lemma relay_no_407 (d : Direction) (l : list IOEvent) :
  Forall (fun e => is407 e = false) (map (Relay d) l).
Proof. apply Forall_map, Forall_forall. reflexivity. Qed.

Lemma flat_relay (d : Direction) (l : list IOEvent) :
  flat (map (Relay d) l) = map (Relay d) l.
Proof. induction l as [|e l IH]; [reflexivity|]. cbn. now f_equal. Qed.

Lemma httpError_no_407 (error : string) (code : Z) :
  code <> 407 ->
  Forall (fun e => is407 e = false) (flat (events (httpError w error code))).
Proof.
  intros Hc. destruct w; cbn; repeat constructor.
  apply Z.eqb_neq. exact Hc.
Qed.

Lemma handleTunneling_no_407 :
  Forall (fun e => is407 e = false) (flat (events (handleTunneling p env w r rr)))
  /\ Forall (fun e => is407 e = false)
       (flat (events (ForwardingProxy2.handleTunneling p env w r rr))).
Proof.
  unfold handleTunneling, ForwardingProxy2.handleTunneling.
  destruct (negb (String.eqb (http.Method r) http.MethodConnect)).
  { split; apply httpError_no_407; discriminate. }
  destruct (dial env "tcp" (http.Host r) (DestDialTimeout p)) as [err | destConn].
  { rewrite !events_after, !flat_app, !Forall_app.
    repeat split; try (apply httpError_no_407; discriminate); repeat constructor. }
  destruct w as [|[|]]; cbn [events];
    rewrite ?flat_app; cbn [flat flat_map app]; rewrite ?app_nil_r;
    repeat (rewrite ?Forall_app, ?Forall_cons_iff);
    repeat split; rewrite ?flat_relay; auto using relay_no_407, Forall_nil.
Qed.

Lemma dispatch_no_407 :
  Forall (fun e => is407 e = false) (flat (events (dispatch p env w r rr)))
  /\ Forall (fun e => is407 e = false) (flat (events (dispatch2 p env w r rr))).
Proof.
  unfold dispatch, dispatch2.
  destruct (String.eqb (http.Scheme (http.URL r)) "http").
  - split; repeat constructor.
  - apply handleTunneling_no_407.
Qed.

End NoCredentials.

(** C9: when the configured user or the configured password is empty,
    [ServeHTTP] checks no credentials: whatever the Proxy-Authorization
    header holds, the request goes to the reverse proxy or to the tunnel,
    and nothing that follows answers 407.  Both revisions do so. *)
Theorem ServeHTTP_without_credentials (p : ForwardingProxy.ForwardingProxy)
    (env : ForwardingProxy.Env) (w : http.ResponseWriter) (r : http.Request)
    (rr : Endpoint) :
  ForwardingProxy.AuthUser p = "" \/ ForwardingProxy.AuthPass p = "" ->
  (ForwardingProxy.ServeHTTP p env w r rr
   = ForwardingProxy.after
       [ForwardingProxy.Log
          [ForwardingProxy.LStr "Incoming request host";
           ForwardingProxy.LStr (http.Host r)]]
       (dispatch p env w r rr)
   /\ Forall (fun e => is407 e = false)
        (ForwardingProxy.flat
           (ForwardingProxy.events (ForwardingProxy.ServeHTTP p env w r rr))))
  /\ (ForwardingProxy2.ServeHTTP p env w r rr
      = ForwardingProxy.after
          [ForwardingProxy.Log
             [ForwardingProxy.LStr "Incoming request host";
              ForwardingProxy.LStr (http.Host r);
              ForwardingProxy.LHeader (http.header r)]]
          (dispatch2 p env w r rr)
      /\ Forall (fun e => is407 e = false)
           (ForwardingProxy.flat
              (ForwardingProxy.events (ForwardingProxy2.ServeHTTP p env w r rr)))).
Proof.
  intros H. destruct (ServeHTTP_unguarded p env w r rr H) as [H1 H2].
  destruct (dispatch_no_407 p env w r rr) as [D1 D2].
  rewrite H1, H2, !events_after, !flat_app, !Forall_app.
  repeat split; auto; repeat constructor.
Qed.

(** The proxy that [NewMultiForwardingProxy] builds without credentials
    tunnels a CONNECT request that carries no header. *)
Lemma ServeHTTP_without_credentials_witness :
  ForwardingProxy.ServeHTTP ForwardingProxy.NewMultiForwardingProxy sampleEnv
    (http.writer true) (connectRequest ∅) streamBody
  = ForwardingProxy.after
      [ForwardingProxy.Log
         [ForwardingProxy.LStr "Incoming request host";
          ForwardingProxy.LStr "dest.example:443"]]
      (dispatch ForwardingProxy.NewMultiForwardingProxy sampleEnv
         (http.writer true) (connectRequest ∅) streamBody).
Proof.
  refine (proj1 (proj1 (ServeHTTP_without_credentials
                          ForwardingProxy.NewMultiForwardingProxy sampleEnv
                          (http.writer true) (connectRequest ∅) streamBody _))).
  left. reflexivity.
Defined.

(** ** Goroutines *)

Section Goroutines.
Import ForwardingProxy.

Lemma run_nil (d : bool) (t : list Event) :
  run {| caller := []; started := []; doneClosed := d |} t -> t = [].
Proof.
  intros H. inversion H as [| ? ? ? ? Hs | ? ? ? Hs]; subst;
    [reflexivity | inversion Hs | inversion Hs].
Qed.

(** Plain events of the caller are observed as they come. *)
Lemma run_plain (l rest b : list Event) (d : bool) (t : list Event) :
  Forall plain l ->
  run {| caller := rest; started := b; doneClosed := d |} t ->
  run {| caller := l ++ rest; started := b; doneClosed := d |} (l ++ t).
Proof.
  induction 1 as [|e l He _ IH]; intros Hr; [exact Hr|].
  cbn [app]. eapply run_obs; [apply step_caller, He | now apply IH].
Qed.

(** With no goroutine started, a plain prefix of the caller is observed
    first. *)
Lemma run_plain_inv (l rest : list Event) (d : bool) (t : list Event) :
  Forall plain l ->
  run {| caller := l ++ rest; started := []; doneClosed := d |} t ->
  exists t', t = (l ++ t')%list
             /\ run {| caller := rest; started := []; doneClosed := d |} t'.
Proof.
  intros Hl. revert t. induction Hl as [|e l He _ IH]; intros t Hr.
  - now exists t.
  - cbn [app] in Hr.
    inversion Hr as [| c e' c' t' Hs Hr' | c c' t' Hs Hr']; subst.
    + inversion Hs; subst.
      destruct (IH _ Hr') as (t'' & -> & Hrest). now exists t''.
    + inversion Hs; subst; cbn in He; discriminate.
Qed.

Lemma run_go_inv (body m : list Event) (d : bool) (t : list Event) :
  run {| caller := Go body :: m; started := []; doneClosed := d |} t ->
  run {| caller := m; started := body; doneClosed := d |} t.
Proof.
  intros Hr. inversion Hr as [| c e' c' t' Hs Hr' | c c' t' Hs Hr']; subst.
  - inversion Hs; subst. cbn in *. discriminate.
  - inversion Hs; subst. exact Hr'.
Qed.

(** Once [done] is closed and the goroutine is through, the caller runs
    alone. *)
Lemma run_alone_inv (fg post : list Event) (t : list Event) :
  Forall plain fg -> Forall plain post ->
  run {| caller := fg ++ RecvDone :: post; started := []; doneClosed := true |} t ->
  t = (fg ++ post)%list.
Proof.
  intros Hfg Hpost Hr.
  destruct (run_plain_inv _ _ _ _ Hfg Hr) as (t1 & -> & Hr1).
  f_equal.
  inversion Hr1 as [| c e' c' t' Hs Hr' | c c' t' Hs Hr']; subst.
  - inversion Hs; subst. cbn in *. discriminate.
  - inversion Hs; subst.
    rewrite <- (app_nil_r post) in Hr'.
    destruct (run_plain_inv _ _ _ _ Hpost Hr') as (t2 & -> & Hr2).
    apply run_nil in Hr2. subst. now rewrite app_nil_r.
Qed.

Lemma interleave_only_r {A : Type} (l : list A) : interleave [] l l.
Proof. induction l; constructor; assumption. Qed.

(** While the goroutine runs, its events and the caller's interleave; the
    caller passes [<-done] only after the goroutine's [close(done)]. *)
Lemma run_par_inv (c : Config) (t : list Event) :
  run c t ->
  forall b fg post,
    Forall plain b -> Forall plain fg -> Forall plain post ->
    c = {| caller := fg ++ RecvDone :: post;
           started := b ++ [CloseDone];
           doneClosed := false |} ->
    exists m, interleave b fg m /\ t = (m ++ post)%list.
Proof.
  induction 1 as [b0 d | c e c' t Hs Hr IH | c c' t Hs Hr IH];
    intros b fg post Hb Hfg Hpost Hc.
  - injection Hc as Hcaller _ _.
    now apply app_cons_not_nil in Hcaller.
  - subst c. inversion Hs as [e0 m0 b1 d0 He | e0 m0 b1 d0 He | | |]; subst.
    + destruct fg as [|e1 fg]; cbn [app] in *.
      * match goal with H : _ :: _ = _ :: _ |- _ => injection H as -> _ end.
        discriminate He.
      * match goal with H : _ :: _ = _ :: _ |- _ => injection H as -> -> end.
        apply Forall_cons in Hfg as [_ Hfg].
        destruct (IH b fg post Hb Hfg Hpost eq_refl) as (m & Hm & ->).
        exists (e1 :: m). split; [now constructor | reflexivity].
    + destruct b as [|e1 b]; cbn [app] in *.
      * match goal with H : _ :: _ = _ :: _ |- _ => injection H as -> _ end.
        discriminate He.
      * match goal with H : _ :: _ = _ :: _ |- _ => injection H as -> -> end.
        apply Forall_cons in Hb as [_ Hb].
        destruct (IH b fg post Hb Hfg Hpost eq_refl) as (m & Hm & ->).
        exists (e1 :: m). split; [now constructor | reflexivity].
  - subst c. inversion Hs as [| | body m0 d0 | m0 b1 d0 | m0 b1]; subst.
    + match goal with H : [] = (_ ++ _ :: _)%list |- _ =>
        now apply app_cons_not_nil in H end.
    + destruct b as [|e1 b]; cbn [app] in *.
      * match goal with H : _ :: _ = _ :: _ |- _ => injection H as -> end.
        exists fg. split; [apply interleave_only_r|].
        now apply run_alone_inv.
      * match goal with H : _ :: _ = _ :: _ |- _ => injection H as <- _ end.
        apply Forall_cons in Hb as [Hb _]. discriminate Hb.
Qed.

Lemma run_par (b fg m post : list Event) :
  interleave b fg m ->
  Forall plain b -> Forall plain fg -> Forall plain post ->
  run {| caller := fg ++ RecvDone :: post;
         started := b ++ [CloseDone];
         doneClosed := false |} (m ++ post).
Proof.
  induction 1 as [| a l1 l2 l _ IH | a l1 l2 l _ IH]; intros Hb Hfg Hpost.
  - cbn [app]. eapply run_tau; [apply step_close|].
    eapply run_tau; [apply step_recv|].
    rewrite <- (app_nil_r post) at 1. rewrite <- (app_nil_r post) at 2.
    apply run_plain; [assumption | constructor].
  - apply Forall_cons in Hb as [Ha Hb]. cbn [app].
    eapply run_obs; [apply step_started, Ha | now apply IH].
  - apply Forall_cons in Hfg as [Ha Hfg]. cbn [app].
    eapply run_obs; [apply step_caller, Ha | now apply IH].
Qed.

(** What can be observed of a caller that starts one goroutine, works, and
    waits for it. *)
Lemma observed_tunnel (pre b fg post : list Event) (t : list Event) :
  Forall plain pre -> Forall plain b -> Forall plain fg -> Forall plain post ->
  observed (Returned (pre ++ Go (b ++ [CloseDone]) :: fg ++ RecvDone :: post)) t
  <-> exists m, interleave b fg m /\ t = (pre ++ m ++ post)%list.
Proof.
  intros Hpre Hb Hfg Hpost. unfold observed. cbn [events]. split.
  - intros Hr.
    destruct (run_plain_inv _ _ _ _ Hpre Hr) as (t1 & -> & Hr1).
    apply run_go_inv in Hr1.
    destruct (run_par_inv _ _ Hr1 b fg post Hb Hfg Hpost eq_refl) as (m & Hm & ->).
    now exists m.
  - intros (m & Hm & ->).
    apply run_plain; [assumption|].
    eapply run_tau; [apply step_go|].
    now apply run_par.
Qed.

Lemma relay_plain (d : Direction) (l : list IOEvent) :
  Forall plain (map (Relay d) l).
Proof. apply Forall_map, Forall_forall. reflexivity. Qed.

End Goroutines.

(** ** The forwarding proxy: the order of a tunnel *)

Section Tunnel.
Import ForwardingProxy.

Variables (p : ForwardingProxy) (env : Env) (r : http.Request).
Variables (rr destConn : Endpoint).

Hypothesis connect : http.Method r = http.MethodConnect.
Hypothesis dialled : dial env "tcp" (http.Host r) (DestDialTimeout p) = inr destConn.

Lemma handleTunneling_opened :
  handleTunneling p env (http.writer true) r rr
  = Returned
      ((tunnelSetup p r destConn
        ++ [Println ["Connected to host"; http.Host r];
            ResponseWrite 200 "HTTP/1.1"; Flush;
            Println ["Flushed to host"; http.Host r]])
       ++ Go (relayToSink env destConn ++ [CloseDone])
       :: relayToDest env destConn rr
       ++ RecvDone
       :: [Println ["Done for"; http.Host r]; ConnClose destConn; ConnClose rr])%list.
Proof.
  unfold handleTunneling. rewrite connect, String.eqb_refl, dialled. reflexivity.
Qed.

Lemma handleTunneling2_opened :
  ForwardingProxy2.handleTunneling p env (http.writer true) r rr
  = Returned
      ((tunnelSetup p r destConn ++ [ResponseWrite 200 "HTTP/1.1"; Flush])
       ++ Go (relayToSink env destConn ++ [CloseDone])
       :: relayToDest env destConn rr
       ++ RecvDone :: [ConnClose destConn; ConnClose rr])%list.
Proof.
  unfold ForwardingProxy2.handleTunneling.
  rewrite connect, String.eqb_refl, dialled. reflexivity.
Qed.

Lemma handleTunneling_observed (t : list Event) :
  observed (handleTunneling p env (http.writer true) r rr) t
  <-> exists m,
        interleave (relayToSink env destConn) (relayToDest env destConn rr) m
        /\ t = ((tunnelSetup p r destConn
                 ++ [Println ["Connected to host"; http.Host r];
                     ResponseWrite 200 "HTTP/1.1"; Flush;
                     Println ["Flushed to host"; http.Host r]])
                ++ m
                ++ [Println ["Done for"; http.Host r];
                    ConnClose destConn; ConnClose rr])%list.
Proof.
  rewrite handleTunneling_opened.
  apply observed_tunnel; try apply relay_plain; repeat constructor.
Qed.

Lemma handleTunneling2_observed (t : list Event) :
  observed (ForwardingProxy2.handleTunneling p env (http.writer true) r rr) t
  <-> exists m,
        interleave (relayToSink env destConn) (relayToDest env destConn rr) m
        /\ t = ((tunnelSetup p r destConn ++ [ResponseWrite 200 "HTTP/1.1"; Flush])
                ++ m ++ [ConnClose destConn; ConnClose rr])%list.
Proof.
  rewrite handleTunneling2_opened.
  apply observed_tunnel; try apply relay_plain; repeat constructor.
Qed.

Lemma handleTunneling_tunnelOrder (t : list Event) :
  observed (handleTunneling p env (http.writer true) r rr) t ->
  tunnelOrder (relayToSink env destConn) (relayToDest env destConn rr) destConn rr t.
Proof.
  intros (m & Hm & ->)%handleTunneling_observed.
  exists (tunnelSetup p r destConn ++ [Println ["Connected to host"; http.Host r]])%list,
    [Println ["Flushed to host"; http.Host r]], m,
    [Println ["Done for"; http.Host r]].
  repeat split; try assumption; repeat constructor.
Qed.

Lemma handleTunneling2_tunnelOrder (t : list Event) :
  observed (ForwardingProxy2.handleTunneling p env (http.writer true) r rr) t ->
  tunnelOrder (relayToSink env destConn) (relayToDest env destConn rr) destConn rr t.
Proof.
  intros (m & Hm & ->)%handleTunneling2_observed.
  exists (tunnelSetup p r destConn), [], m, [].
  repeat split; try assumption; repeat constructor.
Qed.

End Tunnel.

(** C6: for a CONNECT request whose destination is dialled with success,
    every run of [handleTunneling] writes the response 200 to the sink and
    flushes it before any event of a relay; the relay from the destination
    to the sink and the relay from the source to the destination then run
    side by side, in that every interleaving of their events is the relay
    part of some run, and of no run is it anything else; and
    [handleTunneling] closes the destination connection and the source
    stream after the last event of both relays.  Both revisions do so. *)
Theorem handleTunneling_order (p : ForwardingProxy.ForwardingProxy)
    (env : ForwardingProxy.Env) (r : http.Request) (rr destConn : Endpoint) :
  http.Method r = http.MethodConnect ->
  ForwardingProxy.dial env "tcp" (http.Host r) (ForwardingProxy.DestDialTimeout p)
  = inr destConn ->
  (forall t,
      ForwardingProxy.observed
        (ForwardingProxy.handleTunneling p env (http.writer true) r rr) t
      \/ ForwardingProxy.observed
           (ForwardingProxy2.handleTunneling p env (http.writer true) r rr) t ->
      tunnelOrder (relayToSink env destConn) (relayToDest env destConn rr)
        destConn rr t)
  /\ (forall m,
        interleave (relayToSink env destConn) (relayToDest env destConn rr) m ->
        (exists before after,
            ForwardingProxy.observed
              (ForwardingProxy.handleTunneling p env (http.writer true) r rr)
              (before ++ m ++ after)%list)
        /\ (exists before after,
               ForwardingProxy.observed
                 (ForwardingProxy2.handleTunneling p env (http.writer true) r rr)
                 (before ++ m ++ after)%list)).
Proof.
  intros Hc Hd. split.
  - intros t [Ho | Ho].
    + now apply (handleTunneling_tunnelOrder p env r rr destConn Hc Hd).
    + now apply (handleTunneling2_tunnelOrder p env r rr destConn Hc Hd).
  - intros m Hm. split; do 2 eexists.
    + apply (handleTunneling_observed p env r rr destConn Hc Hd).
      exists m. split; [exact Hm | reflexivity].
    + apply (handleTunneling2_observed p env r rr destConn Hc Hd).
      exists m. split; [exact Hm | reflexivity].
Qed.

Lemma interleave_app {A : Type} (l1 l2 : list A) : interleave l1 l2 (l1 ++ l2).
Proof.
  induction l1 as [|a l1 IH]; [apply interleave_only_r | now constructor].
Qed.

(** The run in which the goroutine's relay ends before the caller's begins. *)
Lemma handleTunneling_order_witness :
  exists before after,
    ForwardingProxy.observed
      (ForwardingProxy.handleTunneling guardedProxy sampleEnv (http.writer true)
         (connectRequest ∅) streamBody)
      (before
       ++ (relayToSink sampleEnv tcpConn ++ relayToDest sampleEnv tcpConn streamBody)
       ++ after)%list.
Proof.
  exact (proj1 (proj2 (handleTunneling_order guardedProxy sampleEnv
                         (connectRequest ∅) streamBody tcpConn eq_refl eq_refl)
                  _ (interleave_app _ _))).
Defined.

(** ** The tunnel server: the handshake of a control connection *)

Section Handshake.
Import Server.

Variables (s : Server) (env : Env) (conn : Conn).

Lemma matched_unique (id : ID) (client c : AllowedClient) :
  peerID env conn = inr id -> checkID s id = Some client ->
  matched s env conn c -> c = client.
Proof. intros Hid Hc (id' & Hid' & Hc'). congruence. Qed.

(** What the label [reject] leaves behind. *)
Lemma reject_spec (client : option AllowedClient) (pool0 : gmap string Conn)
    (t0 : list Event) (why : Rejection) (pool' : gmap string Conn)
    (t : list Event) (verdict : Handshake) :
  reject conn client pool0 t0 why = (pool', t, verdict) ->
  verdict = Rejected why
  /\ last t = Some (ConnClose conn)
  /\ forall c, client = Some c -> pool' !! Host c = None.
Proof.
  unfold reject. intros [= <- <- <-]. rewrite last_snoc. repeat split.
  intros c ->. apply lookup_delete_eq.
Qed.

(** A branch of [handleClient] that jumps to [reject]. *)
Ltac rejected H :=
  apply reject_spec in H as (-> & Hlast & Hdead);
  split; [split; [discriminate | intros (? & ? & ? & ? & ? & ? & ?); congruence]|];
  split; [intros _; split; [exact Hlast|] | discriminate].

Lemma handleClient_spec (pool pool' : gmap string Conn) (t : list Event)
    (verdict : Handshake) :
  handleClient s env pool conn = (pool', t, verdict) ->
  (verdict = Connected <-> handshakeSucceeds s env pool conn)
  /\ (verdict <> Connected ->
      last t = Some (ConnClose conn)
      /\ forall client, matched s env conn client -> pool' !! Host client = None)
  /\ (verdict = Connected ->
      ~ In (ConnClose conn) t
      /\ forall client, matched s env conn client -> pool' !! Host client = Some conn).
Proof.
  unfold handleClient. intros H.
  destruct (peerID env conn) as [err | id] eqn:Hid.
  { rejected H. intros client (id & Hid' & _). congruence. }
  destruct (checkID s id) as [client|] eqn:Hc.
  2:{ rejected H. intros client (id' & Hid' & Hc'). congruence. }
  destruct (NewRequest env http.MethodConnect (url (Host client))) as [err|] eqn:Hreq.
  { rejected H. intros c Hm. rewrite (matched_unique _ _ _ Hid Hc Hm). now apply Hdead. }
  unfold addHostConn in H.
  destruct (malformed env (Host client)) eqn:Hmal.
  { rejected H. intros c Hm. rewrite (matched_unique _ _ _ Hid Hc Hm). now apply Hdead. }
  destruct (httpClientDo env _ http.MethodConnect (url (Host client)))
    as [err | status] eqn:Hdo.
  { rejected H. intros c Hm. rewrite (matched_unique _ _ _ Hid Hc Hm). now apply Hdead. }
  destruct (Z.eqb_spec status http.StatusOK) as [-> | Hstatus]; cbn [negb] in H.
  2:{ rejected H. intros c Hm. rewrite (matched_unique _ _ _ Hid Hc Hm). now apply Hdead. }
  injection H as <- <- <-. split; [|split].
  - split; [intros _ | reflexivity]. now exists id, client.
  - intros Hne. now destruct Hne.
  - intros _. split.
    + destruct (setDeadline env conn); cbn; intuition discriminate.
    + intros c Hm. rewrite (matched_unique _ _ _ Hid Hc Hm). apply lookup_insert_eq.
Qed.

End Handshake.

(** C4: a control connection is rejected exactly when a step of the
    handshake fails (no identity in the certificate, an unknown identity, a
    host that makes no request, a host the registry refuses, a probe that
    errs, a probe answered with another status than 200).  [handleClient]
    then closes the connection as its last action, and the host of the
    allowed client the connection was matched with, if it was matched with
    one, has no entry in the registry afterwards. *)
Theorem handleClient_rejected (s : Server.Server) (env : Server.Env)
    (pool : gmap string Server.Conn) (conn : Server.Conn)
    (pool' : gmap string Server.Conn) (t : list Server.Event)
    (verdict : Server.Handshake) :
  Server.handleClient s env pool conn = (pool', t, verdict) ->
  (verdict <> Server.Connected <-> ~ handshakeSucceeds s env pool conn)
  /\ (verdict <> Server.Connected ->
      last t = Some (Server.ConnClose conn)
      /\ forall client,
          matched s env conn client -> pool' !! Server.Host client = None).
Proof.
  intros H. destruct (handleClient_spec s env conn pool pool' t verdict H) as (Hv & Hr & _).
  split; [|exact Hr]. now rewrite Hv.
Qed.

Lemma triple_eta {A B C : Type} (x : A * B * C) : x = (fst (fst x), snd (fst x), snd x).
Proof. now destruct x as [[a b] c]. Qed.

(** A probe answered with 503: the connection is closed and the registry
    holds nothing for the client's host. *)
Lemma handleClient_rejected_witness :
  last (snd (fst (Server.handleClient sampleServer (serverEnv 503) ∅ sampleConn)))
  = Some (Server.ConnClose sampleConn)
  /\ fst (fst (Server.handleClient sampleServer (serverEnv 503) ∅ sampleConn))
     !! "a.example" = None.
Proof.
  destruct (handleClient_rejected sampleServer (serverEnv 503) ∅ sampleConn _ _ _
              (triple_eta _)) as [_ H].
  destruct H as [Hlast Hdead]; [vm_compute; discriminate|].
  split; [exact Hlast|].
  apply (Hdead {| Server.ClientID := "client-x"; Server.Host := "a.example";
                  Server.Listeners := [] |}).
  exists "client-x". split; reflexivity.
Defined.

(** ** The tunnel server: the HTTP entry point *)

Section EntryPoint.
Import Server.

Variables (env : Env) (pool : gmap string Conn) (r : http.Request).




Lemma ServeHTTP_unfold :
  ServeHTTP env pool r
  = (fst (proxyHTTP env pool (trimPort (http.Host r)) r (entryMessage r))
     ++ match snd (proxyHTTP env pool (trimPort (http.Host r)) r (entryMessage r)) with
        | Some e => [LogMsg Warning "Error %s: %s" (entryMessage r) [e];
                     HttpError e http.StatusBadGateway]
        | None => []
        end)%list.
Proof.
  unfold ServeHTTP. fold (entryMessage r).
  destruct (proxyHTTP env pool (trimPort (http.Host r)) r (entryMessage r)) as [t [e|]];
    cbn [fst snd]; [reflexivity | now rewrite app_nil_r].
Qed.

End EntryPoint.


(** ** The tunnel server: the accept loops *)

Section AcceptLoops.
Import Server.

Variables (s : Server) (l : Listener) (client : AllowedClient).

Lemma listenControl_returns (accepts : list Accepted) :
  snd (listenControl s accepts) = Returns
  <-> exists err, In (AcceptError err) accepts /\ closedError err = true.
Proof.
  induction accepts as [|[conn | err] rest IH]; cbn [listenControl].
  - split; [discriminate | intros (err & [] & _)].
  - destruct (listenControl s rest) as [t lp]. cbn [snd] in *.
    rewrite IH. split; intros (err & Hin & Hc); exists err; split; auto.
    + now right.
    + destruct Hin as [[=] | Hin]; assumption.
  - fold (closedError err). destruct (closedError err) eqn:Hc.
    + split; [intros _ | reflexivity]. exists err. split; [now left | assumption].
    + destruct (listenControl s rest) as [t lp]. cbn [snd] in *.
      rewrite IH. split; intros (err' & Hin & Hc'); exists err'; split; auto.
      * now right.
      * destruct Hin as [[= ->] | Hin]; [congruence | assumption].
Qed.

Lemma listen_returns (accepts : list Accepted) :
  snd (listen s l client accepts) = Returns
  <-> exists err, In (AcceptError err) accepts /\ closedError err = true.
Proof.
  induction accepts as [|[conn | err] rest IH]; cbn [listen].
  - split; [discriminate | intros (err & [] & _)].
  - destruct (listen s l client rest) as [t lp]. cbn [snd] in *.
    rewrite IH. split; intros (err & Hin & Hc); exists err; split; auto.
    + now right.
    + destruct Hin as [[=] | Hin]; assumption.
  - fold (closedError err). destruct (closedError err) eqn:Hc.
    + split; [intros _ | reflexivity]. exists err. split; [now left | assumption].
    + destruct (listen s l client rest) as [t lp]. cbn [snd] in *.
      rewrite IH. split; intros (err' & Hin & Hc'); exists err'; split; auto.
      * now right.
      * destruct Hin as [[= ->] | Hin]; [congruence | assumption].
Qed.

End AcceptLoops.

(** C8: in the loop of the control listener and in the loop of a client's
    listener, an accept error that does not tell of a closed listener is
    logged and the loop goes on to the next accept; an accept error that
    tells of a closed listener is logged and the loop returns, whatever
    would come next; an accepted connection is handed to a goroutine and
    the loop goes on; and a loop returns only if one of its accepts failed
    with an error that tells of a closed listener. *)
Theorem accept_loops (s : Server.Server) (l : Server.Listener)
    (client : Server.AllowedClient) :
  (forall err rest,
      closedError err = false ->
      Server.listenControl s (Server.AcceptError err :: rest)
      = (acceptWarning s "Accept %s control connection to %q failed: %s" err
         :: fst (Server.listenControl s rest),
         snd (Server.listenControl s rest))
      /\ Server.listen s l client (Server.AcceptError err :: rest)
         = (acceptWarning s "Accept %s connection to %q failed: %s" err
            :: fst (Server.listen s l client rest),
            snd (Server.listen s l client rest)))
  /\ (forall err rest,
        closedError err = true ->
        Server.listenControl s (Server.AcceptError err :: rest)
        = ([acceptWarning s "Accept %s control connection to %q failed: %s" err],
           Server.Returns)
        /\ Server.listen s l client (Server.AcceptError err :: rest)
           = ([acceptWarning s "Accept %s connection to %q failed: %s" err],
              Server.Returns))
  /\ (forall conn rest,
        snd (Server.listenControl s (Server.AcceptConn conn :: rest))
        = snd (Server.listenControl s rest)
        /\ snd (Server.listen s l client (Server.AcceptConn conn :: rest))
           = snd (Server.listen s l client rest))
  /\ (forall accepts,
        (snd (Server.listenControl s accepts) = Server.Returns
         <-> exists err, In (Server.AcceptError err) accepts /\ closedError err = true)
        /\ (snd (Server.listen s l client accepts) = Server.Returns
            <-> exists err, In (Server.AcceptError err) accepts /\ closedError err = true)).
Proof.
  repeat split.
  - cbn [Server.listenControl]. fold (closedError err). rewrite H.
    now destruct (Server.listenControl s rest).
  - cbn [Server.listen]. fold (closedError err). rewrite H.
    now destruct (Server.listen s l client rest).
  - cbn [Server.listenControl]. fold (closedError err). now rewrite H.
  - cbn [Server.listen]. fold (closedError err). now rewrite H.
  - cbn [Server.listenControl]. now destruct (Server.listenControl s rest).
  - cbn [Server.listen]. now destruct (Server.listen s l client rest).
  - apply listenControl_returns.
  - apply listenControl_returns.
  - apply listen_returns.
  - apply listen_returns.
Qed.

(** A loop that meets a passing error, a connection, and then the error of
    the closed listener. *)
Lemma accept_loops_witness :
  snd (Server.listenControl sampleServer
         [Server.AcceptError "accept tcp: too many open files";
          Server.AcceptConn sampleConn;
          Server.AcceptError "accept tcp [::]:4443: use of closed network connection";
          Server.AcceptConn sampleConn])
  = Server.Returns.
Proof.
  apply (proj1 (proj2 (proj2 (proj2
           (accept_loops sampleServer (Server.listener sampleServer)
              {| Server.ClientID := "client-x"; Server.Host := "a.example";
                 Server.Listeners := [] |}))) _)).
  exists "accept tcp [::]:4443: use of closed network connection".
  split; [cbn; tauto | reflexivity].
Defined.

(** ** The models at work *)

(** The right credentials open the tunnel: the destination is dialled. *)
Example ServeHTTP_accepts_aladdin :
  In (ForwardingProxy.DialTimeout "tcp" "dest.example:443" (10 * ForwardingProxy.second))
    (ForwardingProxy.events
       (ForwardingProxy.ServeHTTP guardedProxy sampleEnv (http.writer true)
          (connectRequest {["Proxy-Authorization" := ["Basic QWxhZGRpbjpvcGVuIHNlc2FtZQ=="]]})
          streamBody)).
Proof. vm_compute. tauto. Qed.

(** A handshake whose probe is answered with 200 registers the client. *)
Example handleClient_connects :
  snd (Server.handleClient sampleServer (serverEnv 200) ∅ sampleConn) = Server.Connected
  /\ fst (fst (Server.handleClient sampleServer (serverEnv 200) ∅ sampleConn))
     !! "a.example" = Some sampleConn.
Proof.
  pose proof (handleClient_spec sampleServer (serverEnv 200) sampleConn ∅ _ _ _
                (triple_eta _)) as (Hv & _ & Hc).
  assert (Hok : snd (Server.handleClient sampleServer (serverEnv 200) ∅ sampleConn)
                = Server.Connected).
  { apply Hv. exists "client-x",
      {| Server.ClientID := "client-x"; Server.Host := "a.example";
         Server.Listeners := [] |}.
    repeat split. }
  split; [exact Hok|].
  apply (proj2 (Hc Hok)
           {| Server.ClientID := "client-x"; Server.Host := "a.example";
              Server.Listeners := [] |}).
  exists "client-x". split; reflexivity.
Qed.

(** A request for a registered host is proxied and nothing answers 502. *)
Example ServeHTTP_proxies :
  Server.ServeHTTP (serverEnv 200) ∅ (getRequest "a.example:8080")
  = [Server.LogMsg Server.Debug "Start %s" (entryMessage (getRequest "a.example:8080")) [];
     Server.Pipe;
     Server.WriteTo (entryMessage (getRequest "a.example:8080"));
     Server.GoWriteRequest (getRequest "a.example:8080");
     Server.Do "PUT" "https://a.example";
     Server.CopyHeader ∅;
     Server.WriteHeader 200;
     Server.RecvDone;
     Server.LogMsg Server.Debug "Done %s" (entryMessage (getRequest "a.example:8080")) [];
     Server.PipeClose false;
     Server.PipeClose true].
Proof. reflexivity. Qed.

(** * Further properties of the sources *)

(** ** [parseAuth]: splitting at the first colon *)

Section ParseAuth.
Import GoStrings.

Lemma IndexByte_first (u p : string) (c : ascii) :
  IndexByte u c < 0 -> IndexByte (u +:+ String c p) c = len u.
Proof.
  induction u as [|a u IH]; intros Hu.
  - rewrite append_empty. cbn. now rewrite Ascii.eqb_refl.
  - rewrite append_String, len_String. cbn [IndexByte] in *.
    destruct (Ascii.eqb a c); [lia|].
    pose proof (len_nonneg u).
    destruct (Z.ltb_spec (IndexByte u c) 0); [|lia].
    rewrite IH by assumption.
    destruct (Z.ltb_spec (len u) 0); lia.
Qed.

(** A string splits around the first occurrence of a byte it holds. *)
Lemma IndexByte_split (a : string) (c : ascii) :
  0 <= IndexByte a c ->
  a = sliceTo a (IndexByte a c) +:+ String c (sliceFrom a (IndexByte a c + 1))
  /\ IndexByte (sliceTo a (IndexByte a c)) c < 0.
Proof.
  induction a as [|x a IH]; cbn [IndexByte]; [lia|].
  destruct (Ascii.eqb_spec x c) as [-> | Hne].
  - intros _. split; [reflexivity|]. unfold sliceTo.
    change (Z.to_nat 0) with 0%nat. cbn [taken IndexByte]. lia.
  - pose proof (IndexByte_range a c) as Hr.
    destruct (Z.ltb_spec (IndexByte a c) 0); [lia|]. intros _.
    destruct IH as [Heq Hno]; [lia|].
    unfold sliceTo, sliceFrom in *.
    replace (Z.to_nat (IndexByte a c + 1)) with (S (Z.to_nat (IndexByte a c))) by lia.
    replace (Z.to_nat (IndexByte a c + 1 + 1))
      with (S (Z.to_nat (IndexByte a c + 1))) by lia.
    cbn [taken dropn]. rewrite append_String. split.
    + now rewrite <- Heq.
    + now apply IndexByte_String_other.
Qed.

End ParseAuth.

(** X1: [parseAuth] succeeds exactly on the strings ["user:pass"], and the
    user it returns is what stands before the first colon: it has no colon
    in it.  It fails, with empty strings, exactly on the strings without a
    colon. *)
Theorem parseAuth_spec (a : string) :
  (forall user pass,
      ForwardingProxy2.parseAuth a = (user, pass, true)
      <-> a = user +:+ ":" +:+ pass /\ GoStrings.IndexByte user ":" < 0)
  /\ (ForwardingProxy2.parseAuth a = ("", "", false)
      <-> GoStrings.IndexByte a ":" < 0)
  /\ (forall user pass,
        ForwardingProxy2.parseAuth a = (user, pass, false) -> user = "" /\ pass = "").
Proof.
  unfold ForwardingProxy2.parseAuth.
  pose proof (IndexByte_split a ":") as Hsplit.
  destruct (Z.ltb_spec (GoStrings.IndexByte a ":") 0) as [Hneg | Hpos].
  - split; [|split].
    + intros user pass. split; [discriminate|]. intros [-> Hu].
      change (user +:+ ":" +:+ pass) with (user +:+ String ":" pass) in Hneg.
      rewrite (IndexByte_first user pass ":" Hu) in Hneg.
      pose proof (len_nonneg user). lia.
    + split; [intros _; assumption | reflexivity].
    + now intros user pass [= <- <-].
  - destruct (Hsplit Hpos) as [Heq Hno]. split; [|split].
    + intros user pass. split.
      * intros [= <- <-]. split; assumption.
      * intros [-> Hu].
        change (user +:+ ":" +:+ pass) with (user +:+ String ":" pass).
        rewrite (IndexByte_first user pass ":" Hu).
        now rewrite sliceTo_app, sliceFrom_middle.
    + split; [discriminate | lia].
    + discriminate.
Qed.

Lemma parseAuth_spec_witness :
  ForwardingProxy2.parseAuth "svc:s3:cret" = ("svc", "s3:cret", true).
Proof.
  apply (proj1 (parseAuth_spec "svc:s3:cret")). split; [reflexivity|].
  vm_compute. reflexivity.
Defined.

(** ** Base64: decoding what was encoded *)

Section Base64RoundTrip.
Import Base64.

Lemma code_range (c : ascii) : 0 <= code c < 256.
Proof.
  unfold code. pose proof (N_ascii_bounded c). lia.
Qed.

Lemma byte_code (x : Z) (c : ascii) : x mod 256 = code c -> byte x = c.
Proof.
  intros H. unfold byte. change 255 with (Z.ones 8).
  rewrite Z.land_ones by lia. change (2 ^ 8) with 256. rewrite H.
  unfold code. now rewrite N2Z.id, ascii_N_embedding.
Qed.

Lemma land_63 (x : Z) : Z.land x 63 = x mod 64.
Proof. change 63 with (Z.ones 6). now rewrite Z.land_ones by lia. Qed.

(** A multiple of [2^n] and a number below [2^n] share no bit. *)
Lemma lor_add_pow2 (a b n : Z) :
  0 <= n -> 0 <= b < 2 ^ n -> Z.lor (a * 2 ^ n) b = a * 2 ^ n + b.
Proof.
  intros Hn Hb.
  assert (Hland : Z.land (a * 2 ^ n) b = 0).
  { apply Z.bits_inj'. intros m Hm. rewrite Z.land_spec, Z.bits_0.
    destruct (Z.lt_ge_cases m n) as [Hlt | Hge].
    - now rewrite Z.mul_pow2_bits_low.
    - rewrite <- (Z.mod_small b (2 ^ n)) by lia.
      rewrite Z.mod_pow2_bits_high by lia. apply andb_false_r. }
  now rewrite <- Z.lxor_lor, <- Z.add_nocarry_lxor.
Qed.

Lemma quantumVal_sum (v0 v1 v2 v3 : Z) :
  0 <= v0 -> 0 <= v1 < 64 -> 0 <= v2 < 64 -> 0 <= v3 < 64 ->
  quantumVal [v0; v1; v2; v3] = v0 * 262144 + v1 * 4096 + v2 * 64 + v3.
Proof.
  intros H0 H1 H2 H3. unfold quantumVal. cbn [nth].
  rewrite !Z.shiftl_mul_pow2 by lia.
  rewrite (lor_add_pow2 v0 (v1 * 2 ^ 12) 18) by (change (2 ^ 12) with 4096; change (2 ^ 18) with 262144; lia).
  replace (v0 * 2 ^ 18 + v1 * 2 ^ 12) with ((v0 * 64 + v1) * 2 ^ 12)
    by (change (2 ^ 12) with 4096; change (2 ^ 18) with 262144; lia).
  rewrite (lor_add_pow2 _ (v2 * 2 ^ 6) 12) by (change (2 ^ 12) with 4096; change (2 ^ 6) with 64; lia).
  replace ((v0 * 64 + v1) * 2 ^ 12 + v2 * 2 ^ 6) with ((v0 * 4096 + v1 * 64 + v2) * 2 ^ 6)
    by (change (2 ^ 12) with 4096; change (2 ^ 6) with 64; lia).
  rewrite (lor_add_pow2 _ v3 6) by (change (2 ^ 6) with 64; lia).
  change (2 ^ 6) with 64. lia.
Qed.

(** The 24-bit value of three bytes. *)
Lemma bytes_val (a b c : Z) :
  0 <= a -> 0 <= b < 256 -> 0 <= c < 256 ->
  Z.lor (Z.lor (Z.shiftl a 16) (Z.shiftl b 8)) c = a * 65536 + b * 256 + c.
Proof.
  intros Ha Hb Hc. rewrite !Z.shiftl_mul_pow2 by lia.
  rewrite (lor_add_pow2 a (b * 2 ^ 8) 16) by (change (2 ^ 8) with 256; change (2 ^ 16) with 65536; lia).
  replace (a * 2 ^ 16 + b * 2 ^ 8) with ((a * 256 + b) * 2 ^ 8)
    by (change (2 ^ 8) with 256; change (2 ^ 16) with 65536; lia).
  rewrite (lor_add_pow2 _ c 8) by (change (2 ^ 8) with 256; lia).
  change (2 ^ 8) with 256. lia.
Qed.

(** The sextets of a 24-bit value put the value together again. *)
Lemma sextets_val (val : Z) :
  0 <= val < 16777216 ->
  quantumVal [Z.land (Z.shiftr val 18) 63; Z.land (Z.shiftr val 12) 63;
              Z.land (Z.shiftr val 6) 63; Z.land val 63] = val.
Proof.
  intros Hval. rewrite !land_63, !Z.shiftr_div_pow2 by lia.
  change (2 ^ 18) with 262144. change (2 ^ 12) with 4096. change (2 ^ 6) with 64.
  rewrite quantumVal_sum by (try apply Z.mod_pos_bound; lia).
  Z.to_euclidean_division_equations. lia.
Qed.

Lemma decodeMap_alphabet (n : nat) :
  (n < 64)%nat ->
  decodeMap (GoStrings.byteAt encodeStd (Z.of_nat n)) = Some (Z.of_nat n).
Proof.
  intros Hn.
  do 64 (destruct n as [|n]; [vm_compute; reflexivity|]). lia.
Qed.

Lemma decodeMap_encodeChar (v : Z) : decodeMap (encodeChar v) = Some (Z.land v 63).
Proof.
  unfold encodeChar. rewrite land_63.
  pose proof (Z.mod_pos_bound v 64 ltac:(lia)) as Hk.
  rewrite <- (Z2Nat.id (v mod 64)) by lia.
  apply decodeMap_alphabet. lia.
Qed.

(** Four characters of the alphabet fill a quantum. *)
Lemma decode_quantum (e0 e1 e2 e3 : ascii) (v0 v1 v2 v3 : Z) (rest : string) :
  decodeMap e0 = Some v0 -> decodeMap e1 = Some v1 ->
  decodeMap e2 = Some v2 -> decodeMap e3 = Some v3 ->
  decode (String e0 (String e1 (String e2 (String e3 rest)))) []
  = match decode rest [] with
    | Some out => Some (quantumBytes [v0; v1; v2; v3] +:+ out)
    | None => None
    end.
Proof.
  intros H0 H1 H2 H3. cbn [decode]. rewrite H0. cbn [app List.length Nat.eqb].
  rewrite H1. cbn [app List.length Nat.eqb].
  rewrite H2. cbn [app List.length Nat.eqb].
  rewrite H3. cbn [app List.length Nat.eqb]. reflexivity.
Qed.

(** Three characters and one pad end the input with two bytes. *)
Lemma decode_pad1 (e0 e1 e2 : ascii) (v0 v1 v2 : Z) :
  decodeMap e0 = Some v0 -> decodeMap e1 = Some v1 -> decodeMap e2 = Some v2 ->
  decode (String e0 (String e1 (String e2 (String padChar EmptyString)))) []
  = Some (quantumBytes [v0; v1; v2]).
Proof.
  intros H0 H1 H2. cbn [decode]. rewrite H0. cbn [app List.length Nat.eqb].
  rewrite H1. cbn [app List.length Nat.eqb].
  rewrite H2. cbn [app List.length Nat.eqb]. reflexivity.
Qed.

(** Two characters and two pads end the input with one byte. *)
Lemma decode_pad2 (e0 e1 : ascii) (v0 v1 : Z) :
  decodeMap e0 = Some v0 -> decodeMap e1 = Some v1 ->
  decode (String e0 (String e1 (String padChar (String padChar EmptyString)))) []
  = Some (quantumBytes [v0; v1]).
Proof.
  intros H0 H1. cbn [decode]. rewrite H0. cbn [app List.length Nat.eqb].
  rewrite H1. cbn [app List.length Nat.eqb]. reflexivity.
Qed.

Lemma quantumBytes_3 (a b c : ascii) :
  let val := Z.lor (Z.lor (Z.shiftl (code a) 16) (Z.shiftl (code b) 8)) (code c) in
  quantumBytes [Z.land (Z.shiftr val 18) 63; Z.land (Z.shiftr val 12) 63;
                Z.land (Z.shiftr val 6) 63; Z.land val 63]
  = String a (String b (String c EmptyString)).
Proof.
  intros val. pose proof (code_range a). pose proof (code_range b).
  pose proof (code_range c).
  assert (Hval : val = code a * 65536 + code b * 256 + code c)
    by (apply bytes_val; lia).
  unfold quantumBytes. cbn [List.length].
  rewrite sextets_val by lia. rewrite !Z.shiftr_div_pow2 by lia.
  change (2 ^ 16) with 65536. change (2 ^ 8) with 256.
  f_equal; [|f_equal; [|f_equal]]; apply byte_code;
    Z.to_euclidean_division_equations; lia.
Qed.

Lemma quantumBytes_2 (a b : ascii) :
  let val := Z.lor (Z.shiftl (code a) 16) (Z.shiftl (code b) 8) in
  quantumBytes [Z.land (Z.shiftr val 18) 63; Z.land (Z.shiftr val 12) 63;
                Z.land (Z.shiftr val 6) 63]
  = String a (String b EmptyString).
Proof.
  intros val. pose proof (code_range a). pose proof (code_range b).
  assert (Hval : val = code a * 65536 + code b * 256 + 0).
  { rewrite <- (bytes_val (code a) (code b) 0) by lia. now rewrite Z.lor_0_r. }
  assert (Hland : Z.land val 63 = 0).
  { rewrite land_63. Z.to_euclidean_division_equations. lia. }
  unfold quantumBytes. cbn [List.length].
  replace (quantumVal [Z.land (Z.shiftr val 18) 63; Z.land (Z.shiftr val 12) 63;
                       Z.land (Z.shiftr val 6) 63])
    with (quantumVal [Z.land (Z.shiftr val 18) 63; Z.land (Z.shiftr val 12) 63;
                      Z.land (Z.shiftr val 6) 63; Z.land val 63])
    by (rewrite Hland; reflexivity).
  rewrite sextets_val by lia. rewrite !Z.shiftr_div_pow2 by lia.
  change (2 ^ 16) with 65536. change (2 ^ 8) with 256.
  f_equal; [|f_equal]; apply byte_code; Z.to_euclidean_division_equations; lia.
Qed.

Lemma quantumBytes_1 (a : ascii) :
  let val := Z.shiftl (code a) 16 in
  quantumBytes [Z.land (Z.shiftr val 18) 63; Z.land (Z.shiftr val 12) 63]
  = String a EmptyString.
Proof.
  intros val. pose proof (code_range a).
  assert (Hval : val = code a * 65536).
  { unfold val. rewrite Z.shiftl_mul_pow2 by lia. reflexivity. }
  assert (Hland : Z.land val 63 = 0).
  { rewrite land_63. Z.to_euclidean_division_equations. lia. }
  assert (Hland6 : Z.land (Z.shiftr val 6) 63 = 0).
  { rewrite land_63, Z.shiftr_div_pow2 by lia. change (2 ^ 6) with 64.
    Z.to_euclidean_division_equations. lia. }
  unfold quantumBytes. cbn [List.length].
  replace (quantumVal [Z.land (Z.shiftr val 18) 63; Z.land (Z.shiftr val 12) 63])
    with (quantumVal [Z.land (Z.shiftr val 18) 63; Z.land (Z.shiftr val 12) 63;
                      Z.land (Z.shiftr val 6) 63; Z.land val 63])
    by (rewrite Hland, Hland6; reflexivity).
  rewrite sextets_val by lia. rewrite !Z.shiftr_div_pow2 by lia.
  change (2 ^ 16) with 65536.
  f_equal. apply byte_code. Z.to_euclidean_division_equations. lia.
Qed.

(** Decoding undoes encoding. *)
Lemma DecodeString_EncodeToString (s : string) :
  DecodeString (EncodeToString s) = Some s.
Proof.
  unfold DecodeString.
  assert (H : forall n s, (String.length s <= n)%nat ->
                          decode (EncodeToString s) [] = Some s).
  { clear s. induction n as [|n IH]; intros s Hn.
    - destruct s; [reflexivity | cbn in Hn; lia].
    - destruct s as [|a [|b [|c rest]]].
      + reflexivity.
      + cbn [EncodeToString].
        rewrite (decode_pad2 _ _ _ _ (decodeMap_encodeChar _) (decodeMap_encodeChar _)).
        now rewrite quantumBytes_1.
      + cbn [EncodeToString].
        rewrite (decode_pad1 _ _ _ _ _ _ (decodeMap_encodeChar _)
                   (decodeMap_encodeChar _) (decodeMap_encodeChar _)).
        now rewrite quantumBytes_2.
      + cbn [EncodeToString].
        rewrite (decode_quantum _ _ _ _ _ _ _ _ _ (decodeMap_encodeChar _)
                   (decodeMap_encodeChar _) (decodeMap_encodeChar _)
                   (decodeMap_encodeChar _)).
        rewrite IH by (cbn in Hn; lia).
        now rewrite quantumBytes_3. }
  now apply (H (String.length s)).
Qed.

End Base64RoundTrip.

(** ** Credentials, from the header to the answer *)

Section Authentication.
Import GoStrings ForwardingProxy.

Lemma parseBasicProxyAuth_encoded (user pass : string) :
  IndexByte user ":" < 0 ->
  parseBasicProxyAuth ("Basic " +:+ Base64.EncodeToString (user +:+ ":" +:+ pass))
  = (user, pass, true).
Proof.
  intros Hu. rewrite parseBasicProxyAuth_prefixed, DecodeString_EncodeToString.
  change (user +:+ ":" +:+ pass) with (user +:+ String ":" pass).
  rewrite (IndexByte_first user pass ":" Hu).
  pose proof (len_nonneg user).
  destruct (Z.ltb_spec (len user) 0); [lia|].
  now rewrite sliceTo_app, sliceFrom_middle.
Qed.

Lemma parseBasicProxyAuth_ok (authz user pass : string) :
  parseBasicProxyAuth authz = (user, pass, true) ->
  IndexByte user ":" < 0
  /\ exists rest, authz = "Basic " +:+ rest
                  /\ Base64.DecodeString rest = Some (user +:+ ":" +:+ pass).
Proof.
  unfold parseBasicProxyAuth.
  destruct (HasPrefix authz "Basic ") eqn:Hp; cbn [negb]; [|discriminate].
  apply HasPrefix_inv in Hp as [rest ->]. rewrite sliceFrom_app.
  destruct (Base64.DecodeString rest) as [cs|] eqn:Hd; [|discriminate].
  cbv zeta. destruct (Z.ltb_spec (IndexByte cs ":") 0) as [|Hpos]; [discriminate|].
  destruct (IndexByte_split cs ":" Hpos) as [Heq Hno].
  intros [= <- <-]. split; [exact Hno|].
  exists rest. split; [reflexivity|]. rewrite Hd. f_equal. exact Heq.
Qed.

End Authentication.

(** X2: a Proxy-Authorization header made of ["Basic "] and the base64
    encoding of ["user:pass"] parses back to that user and that password,
    for every password and every user without a colon; and whenever
    [parseBasicProxyAuth] succeeds, the header is ["Basic "] followed by
    base64 that decodes to ["user:pass"], and the user it returns has no
    colon in it. *)
Theorem parseBasicProxyAuth_round_trip :
  (forall user pass : string,
      GoStrings.IndexByte user ":" < 0 ->
      ForwardingProxy.parseBasicProxyAuth
        ("Basic " +:+ Base64.EncodeToString (user +:+ ":" +:+ pass))
      = (user, pass, true)
      /\ ForwardingProxy2.parseBasicProxyAuth
           ("Basic " +:+ Base64.EncodeToString (user +:+ ":" +:+ pass))
         = (user, pass, true))
  /\ (forall authz user pass : string,
        ForwardingProxy.parseBasicProxyAuth authz = (user, pass, true) ->
        GoStrings.IndexByte user ":" < 0
        /\ exists rest, authz = "Basic " +:+ rest
                        /\ Base64.DecodeString rest = Some (user +:+ ":" +:+ pass)).
Proof.
  split.
  - intros user pass Hu. split; now apply parseBasicProxyAuth_encoded.
  - apply parseBasicProxyAuth_ok.
Qed.

Lemma parseBasicProxyAuth_round_trip_witness :
  ForwardingProxy.parseBasicProxyAuth
    ("Basic " +:+ Base64.EncodeToString ("svc" +:+ ":" +:+ "s3:cret"))
  = ("svc", "s3:cret", true).
Proof.
  apply (proj1 parseBasicProxyAuth_round_trip "svc" "s3:cret").
  vm_compute. reflexivity.
Defined.

(** X3: with credentials configured whose user has no colon, a request whose
    Proxy-Authorization header is ["Basic "] and the base64 encoding of
    ["user:pass"] for the configured user and password passes the check:
    [ServeHTTP] logs and goes on to the reverse proxy or to the tunnel, as
    it does without credentials.  Both revisions do so. *)
Theorem ServeHTTP_accepts_credentials (p : ForwardingProxy.ForwardingProxy)
    (env : ForwardingProxy.Env) (w : http.ResponseWriter) (r : http.Request)
    (rr : Endpoint) :
  GoStrings.IndexByte (ForwardingProxy.AuthUser p) ":" < 0 ->
  http.Get (http.header r) "Proxy-Authorization"
  = "Basic " +:+ Base64.EncodeToString
                   (ForwardingProxy.AuthUser p +:+ ":" +:+ ForwardingProxy.AuthPass p) ->
  ForwardingProxy.ServeHTTP p env w r rr
  = ForwardingProxy.after
      [ForwardingProxy.Log
         [ForwardingProxy.LStr "Incoming request host";
          ForwardingProxy.LStr (http.Host r)]]
      (dispatch p env w r rr)
  /\ ForwardingProxy2.ServeHTTP p env w r rr
     = ForwardingProxy.after
         [ForwardingProxy.Log
            [ForwardingProxy.LStr "Incoming request host";
             ForwardingProxy.LStr (http.Host r);
             ForwardingProxy.LHeader (http.header r)]]
         (dispatch2 p env w r rr).
Proof.
  intros Hu Hh.
  unfold ForwardingProxy.ServeHTTP, ForwardingProxy2.ServeHTTP, dispatch, dispatch2.
  change ForwardingProxy2.parseBasicProxyAuth with ForwardingProxy.parseBasicProxyAuth.
  rewrite Hh, (parseBasicProxyAuth_encoded _ _ Hu), !String.eqb_refl.
  cbn [negb orb].
  destruct (negb (ForwardingProxy.AuthUser p =? "")%string
            && negb (ForwardingProxy.AuthPass p =? "")%string); split; reflexivity.
Qed.

Lemma ServeHTTP_accepts_credentials_witness :
  ForwardingProxy.ServeHTTP guardedProxy sampleEnv (http.writer true)
    (connectRequest {["Proxy-Authorization" := ["Basic QWxhZGRpbjpvcGVuIHNlc2FtZQ=="]]})
    streamBody
  = ForwardingProxy.after
      [ForwardingProxy.Log
         [ForwardingProxy.LStr "Incoming request host";
          ForwardingProxy.LStr "dest.example:443"]]
      (dispatch guardedProxy sampleEnv (http.writer true)
         (connectRequest {["Proxy-Authorization" := ["Basic QWxhZGRpbjpvcGVuIHNlc2FtZQ=="]]})
         streamBody).
Proof.
  refine (proj1 (ServeHTTP_accepts_credentials guardedProxy sampleEnv (http.writer true)
                   (connectRequest
                      {["Proxy-Authorization" := ["Basic QWxhZGRpbjpvcGVuIHNlc2FtZQ=="]]})
                   streamBody _ _)).
  - vm_compute. reflexivity.
  - vm_compute. reflexivity.
Defined.

(** X4: a proxy whose configured user holds a colon, and whose password is
    not empty, turns every request down: no header parses to a user with a
    colon, so whatever the request carries the answer is 407 and nothing is
    dialled or forwarded.  Both revisions do so. *)
Theorem ServeHTTP_colon_user_locks_out (p : ForwardingProxy.ForwardingProxy)
    (env : ForwardingProxy.Env) (flusher : bool) (r : http.Request) (rr : Endpoint) :
  0 <= GoStrings.IndexByte (ForwardingProxy.AuthUser p) ":" ->
  ForwardingProxy.AuthPass p <> "" ->
  ForwardingProxy.ServeHTTP p env (http.writer flusher) r rr
  = ForwardingProxy.Returned
      [ForwardingProxy.Log
         [ForwardingProxy.LStr "Incoming request host";
          ForwardingProxy.LStr (http.Host r)];
       ForwardingProxy.HttpError "Proxy Authentication Required" 407]
  /\ ForwardingProxy2.ServeHTTP p env (http.writer flusher) r rr
     = ForwardingProxy.Returned
         [ForwardingProxy.Log
            [ForwardingProxy.LStr "Incoming request host";
             ForwardingProxy.LStr (http.Host r);
             ForwardingProxy.LHeader (http.header r)];
          ForwardingProxy.HttpError "Proxy Authentication Required" 407].
Proof.
  intros Hcolon Hpass.
  assert (Huser : ForwardingProxy.AuthUser p <> "").
  { intros Hempty. rewrite Hempty in Hcolon. cbn in Hcolon. lia. }
  assert (Hbad : badCredentials p r).
  { unfold badCredentials.
    destruct (ForwardingProxy.parseBasicProxyAuth
                (http.Get (http.header r) "Proxy-Authorization"))
      as [[user pass] [|]] eqn:Hparse.
    - right; right. exists user, pass. split; [reflexivity|]. left.
      intros ->. apply parseBasicProxyAuth_ok in Hparse as [Hno _]. lia.
    - right; left. now exists user, pass. }
  destruct (ServeHTTP_rejects p env (http.writer flusher) r rr Huser Hpass Hbad)
    as [H1 H2].
  rewrite H1, H2. split; reflexivity.
Qed.

Lemma ServeHTTP_colon_user_locks_out_witness :
  ForwardingProxy.ServeHTTP
    {| ForwardingProxy.localAddr := ""; ForwardingProxy.AuthUser := "team:svc";
       ForwardingProxy.AuthPass := "secret"; ForwardingProxy.DestDialTimeout := 0;
       ForwardingProxy.DestReadTimeout := 0; ForwardingProxy.DestWriteTimeout := 0;
       ForwardingProxy.ClientReadTimeout := 0; ForwardingProxy.ClientWriteTimeout := 0 |}
    sampleEnv (http.writer true)
    (connectRequest
       {["Proxy-Authorization" :=
           ["Basic " +:+ Base64.EncodeToString "team:svc:secret"]]})
    streamBody
  = ForwardingProxy.Returned
      [ForwardingProxy.Log
         [ForwardingProxy.LStr "Incoming request host";
          ForwardingProxy.LStr "dest.example:443"];
       ForwardingProxy.HttpError "Proxy Authentication Required" 407].
Proof.
  refine (proj1 (ServeHTTP_colon_user_locks_out _ sampleEnv true _ streamBody _ _)).
  - vm_compute. discriminate.
  - discriminate.
Defined.

(** ** Credentials, from construction to the answer *)

Section Construction.
Import GoStrings ForwardingProxy.

Lemma parseAuth_joined (user pass : string) :
  IndexByte user ":" < 0 ->
  ForwardingProxy2.parseAuth (user +:+ ":" +:+ pass) = (user, pass, true).
Proof.
  intros Hu. unfold ForwardingProxy2.parseAuth.
  change (user +:+ ":" +:+ pass) with (user +:+ String ":" pass).
  rewrite (IndexByte_first user pass ":" Hu).
  pose proof (len_nonneg user).
  destruct (Z.ltb_spec (len user) 0); [lia|].
  now rewrite sliceTo_app, sliceFrom_middle.
Qed.

Lemma proxyFor_credentials (user pass : string) :
  IndexByte user ":" < 0 ->
  AuthUser (proxyFor user pass) = user /\ AuthPass (proxyFor user pass) = pass.
Proof.
  intros Hu. unfold proxyFor, ForwardingProxy2.NewMultiForwardingProxy.
  rewrite (parseAuth_joined user pass Hu). split; reflexivity.
Qed.

End Construction.

(** X5: [NewMultiForwardingProxy(auth)] takes the user and the password from
    around the first colon of [auth], so the user it configures never holds
    a colon; an [auth] without a colon configures no credentials at all. *)
Theorem NewMultiForwardingProxy_credentials (auth : string) :
  (forall user pass,
      GoStrings.IndexByte user ":" < 0 ->
      auth = user +:+ ":" +:+ pass ->
      ForwardingProxy.AuthUser (ForwardingProxy2.NewMultiForwardingProxy auth) = user
      /\ ForwardingProxy.AuthPass (ForwardingProxy2.NewMultiForwardingProxy auth) = pass)
  /\ (GoStrings.IndexByte auth ":" < 0 ->
      ForwardingProxy.AuthUser (ForwardingProxy2.NewMultiForwardingProxy auth) = ""
      /\ ForwardingProxy.AuthPass (ForwardingProxy2.NewMultiForwardingProxy auth) = "")
  /\ GoStrings.IndexByte
       (ForwardingProxy.AuthUser (ForwardingProxy2.NewMultiForwardingProxy auth)) ":" < 0.
Proof.
  split; [|split].
  - intros user pass Hu ->. now apply proxyFor_credentials.
  - intros Hno. unfold ForwardingProxy2.NewMultiForwardingProxy, ForwardingProxy2.parseAuth.
    destruct (Z.ltb_spec (GoStrings.IndexByte auth ":") 0); [split; reflexivity | lia].
  - unfold ForwardingProxy2.NewMultiForwardingProxy, ForwardingProxy2.parseAuth.
    destruct (Z.ltb_spec (GoStrings.IndexByte auth ":") 0) as [|Hpos]; cbn.
    + lia.
    + apply (IndexByte_split auth ":" Hpos).
Qed.

Lemma NewMultiForwardingProxy_credentials_witness :
  ForwardingProxy.AuthUser (ForwardingProxy2.NewMultiForwardingProxy "tunnel-only") = ""
  /\ ForwardingProxy.AuthPass (ForwardingProxy2.NewMultiForwardingProxy "tunnel-only") = "".
Proof.
  apply (proj1 (proj2 (NewMultiForwardingProxy_credentials "tunnel-only"))).
  vm_compute. reflexivity.
Defined.



(** ** The forwarding proxy: requests that go nowhere *)

(** X7: [handleTunneling] answers 405 to a method other than CONNECT without
    dialling, and 503 with the dial's error when the destination cannot be
    dialled; in both cases it sets no deadline, writes no 200, starts no
    relay and closes nothing.  Both revisions do so. *)
Theorem handleTunneling_refuses (p : ForwardingProxy.ForwardingProxy)
    (env : ForwardingProxy.Env) (flusher : bool) (r : http.Request) (rr : Endpoint) :
  (http.Method r <> http.MethodConnect ->
   ForwardingProxy.handleTunneling p env (http.writer flusher) r rr
   = ForwardingProxy.Returned [ForwardingProxy.HttpError "Method Not Allowed" 405]
   /\ ForwardingProxy2.handleTunneling p env (http.writer flusher) r rr
      = ForwardingProxy.Returned [ForwardingProxy.HttpError "Method Not Allowed" 405])
  /\ (forall err,
        http.Method r = http.MethodConnect ->
        ForwardingProxy.dial env "tcp" (http.Host r) (ForwardingProxy.DestDialTimeout p)
        = inl err ->
        ForwardingProxy.handleTunneling p env (http.writer flusher) r rr
        = ForwardingProxy.Returned
            [ForwardingProxy.DialTimeout "tcp" (http.Host r)
               (ForwardingProxy.DestDialTimeout p);
             ForwardingProxy.HttpError err 503]
        /\ ForwardingProxy2.handleTunneling p env (http.writer flusher) r rr
           = ForwardingProxy.Returned
               [ForwardingProxy.DialTimeout "tcp" (http.Host r)
                  (ForwardingProxy.DestDialTimeout p);
                ForwardingProxy.HttpError err 503]).
Proof.
  unfold ForwardingProxy.handleTunneling, ForwardingProxy2.handleTunneling. split.
  - intros Hm. destruct (String.eqb_spec (http.Method r) http.MethodConnect);
      [contradiction | split; reflexivity].
  - intros err Hm Hd. rewrite Hm, String.eqb_refl, Hd. split; reflexivity.
Qed.

Lemma handleTunneling_refuses_witness :
  ForwardingProxy.handleTunneling guardedProxy sampleEnv (http.writer true)
    {| http.Method := "GET";
       http.URL := {| http.Scheme := "https"; http.URLHost := "dest.example:443";
                      http.Path := "/" |};
       http.Host := "dest.example:443"; http.header := ∅;
       http.RemoteAddr := "198.51.100.7:50000" |}
    streamBody
  = ForwardingProxy.Returned [ForwardingProxy.HttpError "Method Not Allowed" 405].
Proof.
  refine (proj1 (proj1 (handleTunneling_refuses guardedProxy sampleEnv true _ streamBody) _)).
  discriminate.
Defined.

(** X8: when the request cannot be read from the stream, [Proxy] only logs
    and returns, whatever the protocol of the message: nothing is written to
    the sink, nothing is dialled, no goroutine is started.  Both revisions
    do so. *)
Theorem Proxy_unreadable_request (p : ForwardingProxy.ForwardingProxy)
    (env : ForwardingProxy.Env) (r : Endpoint) (msg : proto.ControlMessage)
    (err : string) :
  ForwardingProxy.ReadRequest env = inl err ->
  (exists t, ForwardingProxy.Proxy p env r msg = ForwardingProxy.Returned t
             /\ t <> [] /\ Forall (fun e => isLog e = true) t)
  /\ (exists t, ForwardingProxy2.Proxy p env r msg = ForwardingProxy.Returned t
                /\ t <> [] /\ Forall (fun e => isLog e = true) t).
Proof.
  intros Hread. unfold ForwardingProxy.Proxy, ForwardingProxy2.Proxy. rewrite Hread.
  destruct (negb (proto.ForwardedProto msg =? proto.HTTPCONNECT)%string),
    (ForwardingProxy.sink env);
    split; eexists; (split; [reflexivity|]); split;
    try discriminate; repeat constructor.
Qed.

Lemma Proxy_unreadable_request_witness :
  exists t,
    ForwardingProxy.Proxy guardedProxy
      {| ForwardingProxy.sink := http.writer true;
         ForwardingProxy.ReadRequest := inl "malformed HTTP request";
         ForwardingProxy.setXForwardedFor := fun h _ => h;
         ForwardingProxy.dial := fun _ _ _ => inr tcpConn;
         ForwardingProxy.ioCopy := fun _ _ => (0, None) |}
      streamBody
      {| proto.Action := "proxy"; proto.ForwardedHost := "dest.example:443";
         proto.ForwardedProto := proto.HTTPCONNECT;
         proto.RemoteAddr := "198.51.100.7:50000" |}
    = ForwardingProxy.Returned t
    /\ t <> [] /\ Forall (fun e => isLog e = true) t.
Proof.
  refine (proj1 (Proxy_unreadable_request guardedProxy _ streamBody _
                   "malformed HTTP request" _)).
  reflexivity.
Defined.

(** ** The tunnel server: who is let in *)

(** X9: [checkID] returns the first allowed client with the given identity:
    a client it returns is configured, has that identity, and no client
    before it in the configuration has it; it returns none exactly when no
    configured client has the identity. *)
Theorem checkID_first_match (s : Server.Server) (id : Server.ID) :
  (forall c,
      Server.checkID s id = Some c ->
      Server.ClientID c = id
      /\ exists before after,
           Server.AllowedClients (Server.config s) = (before ++ c :: after)%list
           /\ Forall (fun c' => Server.ClientID c' <> id) before)
  /\ (Server.checkID s id = None
      <-> Forall (fun c => Server.ClientID c <> id)
            (Server.AllowedClients (Server.config s))).
Proof.
  unfold Server.checkID.
  induction (Server.AllowedClients (Server.config s)) as [|c0 l [IHs IHn]];
    cbn [find].
  - split; [discriminate|]. split; constructor.
  - destruct (String.eqb_spec id (Server.ClientID c0)) as [-> | Hne].
    + split.
      * intros c [= <-]. split; [reflexivity|]. exists [], l. split; [reflexivity | constructor].
      * split; [discriminate|]. intros Hall. apply Forall_cons in Hall as [Hc _].
        now destruct Hc.
    + split.
      * intros c Hc. destruct (IHs c Hc) as (Hid & before & after & -> & Hb).
        split; [assumption|]. exists (c0 :: before), after. split; [reflexivity|].
        constructor; [congruence | assumption].
      * rewrite IHn. split.
        -- intros Hall. constructor; [congruence | assumption].
        -- intros Hall. now apply Forall_cons in Hall as [_ Hall].
Qed.

Lemma checkID_first_match_witness :
  Server.ClientID
    {| Server.ClientID := "client-x"; Server.Host := "a.example"; Server.Listeners := [] |}
  = "client-x".
Proof.
  apply (proj1 (proj1 (checkID_first_match sampleServer "client-x") _ eq_refl)).
Defined.

(** X10: a control connection that is matched with no allowed client (its
    certificate yields no identity, or an identity that is not configured)
    is closed after one warning, and that is all: the registry is left as it
    was, no deadline is set and no probe is sent. *)
Theorem handleClient_unmatched (s : Server.Server) (env : Server.Env)
    (pool : gmap string Server.Conn) (conn : Server.Conn) :
  (forall client, ~ matched s env conn client) ->
  exists format args why,
    Server.handleClient s env pool conn
    = (pool,
       [Server.Log Server.Warning format args; Server.ConnClose conn],
       Server.Rejected why).
Proof.
  intros Hno. unfold Server.handleClient.
  destruct (Server.peerID env conn) as [err | id] eqn:Hid.
  - now eexists _, _, _.
  - destruct (Server.checkID s id) as [client|] eqn:Hc.
    + destruct (Hno client). now exists id.
    + now eexists _, _, _.
Qed.

Lemma handleClient_unmatched_witness :
  exists format args why,
    Server.handleClient sampleServer
      {| Server.peerID := fun _ => inr "stranger";
         Server.NewRequest := fun _ _ => None;
         Server.setDeadline := fun _ => None;
         Server.malformed := fun _ => false;
         Server.httpClientDo := fun _ _ _ => inr 200;
         Server.ReadResponse := inl "unused";
         Server.ioCopy := fun _ _ => (0, None);
         Server.responseWriter := streamBody |}
      {["a.example" := sampleConn]} sampleConn
    = ({["a.example" := sampleConn]},
       [Server.Log Server.Warning format args; Server.ConnClose sampleConn],
       Server.Rejected why).
Proof.
  apply handleClient_unmatched.
  intros client (id & Hid & Hc). injection Hid as <-. discriminate Hc.
Defined.

(** ** The tunnel server: what the accept loops hand over *)

Section HandOver.
Import Server.

Variables (s : Server) (l : Listener) (client : AllowedClient).

Lemma listenControl_hands_over (accepts : list Accepted) :
  omap handedToClient (fst (listenControl s accepts)) = acceptedBeforeClose accepts.
Proof.
  induction accepts as [|[conn | err] rest IH]; cbn [listenControl acceptedBeforeClose].
  - reflexivity.
  - destruct (listenControl s rest) as [t lp]. cbn [fst] in *. cbn. now f_equal.
  - fold (closedError err). destruct (closedError err); [reflexivity|].
    destruct (listenControl s rest) as [t lp]. cbn [fst] in *. exact IH.
Qed.

Lemma listen_hands_over (accepts : list Accepted) :
  omap handedToProxy (fst (listen s l client accepts))
  = map (fun c => (Host client, c, listenerMessage l c)) (acceptedBeforeClose accepts).
Proof.
  induction accepts as [|[conn | err] rest IH]; cbn [listen acceptedBeforeClose].
  - reflexivity.
  - destruct (listen s l client rest) as [t lp]. cbn [fst] in *. cbn. now f_equal.
  - fold (closedError err). destruct (closedError err); [reflexivity|].
    destruct (listen s l client rest) as [t lp]. cbn [fst] in *. exact IH.
Qed.

End HandOver.

(** X11: the loop of the control listener hands to [handleClient], one
    goroutine each and in the order of their arrival, exactly the
    connections accepted before the first accept error that tells of a
    closed listener; the loop of a client's listener hands exactly those to
    [proxyConn], each with the host of the client that owns the listener
    and a message that names the listener's network, the connection's
    remote address and its local address. *)
Theorem accept_loops_hand_over (s : Server.Server) (l : Server.Listener)
    (client : Server.AllowedClient) (accepts : list Server.Accepted) :
  omap handedToClient (fst (Server.listenControl s accepts))
  = acceptedBeforeClose accepts
  /\ omap handedToProxy (fst (Server.listen s l client accepts))
     = map (fun c => (Server.Host client, c, listenerMessage l c))
         (acceptedBeforeClose accepts).
Proof.
  split; [apply listenControl_hands_over | apply listen_hands_over].
Qed.

(** ** The tunnel server: one request, one answer *)

Section OneAnswer.
Import Server.

Variables (env : Env) (pool : gmap string Conn).

Lemma relay_no_status (l : list IOEvent) : omap statusWritten (map Relay l) = [].
Proof. induction l as [|e l IH]; [reflexivity | exact IH]. Qed.

Lemma relay_no_pipe_close (l : list IOEvent) :
  Forall (fun e => isPipeClose e = false) (map Relay l).
Proof. apply Forall_map, List.Forall_forall. reflexivity. Qed.

(** What [proxyHTTP] returns and what it writes, by the three calls that can
    fail. *)
Lemma proxyHTTP_cases (host : string) (r : http.Request) (msg : ControlMessage) :
  (exists err before,
      proxyHTTP env pool host r msg
      = ((before ++ [PipeClose false; PipeClose true])%list, Some err)
      /\ Forall (fun e => writesResponse e = false) before
      /\ Forall (fun e => isPipeClose e = false) before
      /\ (NewRequest env http.MethodPut (url host) <> None
          \/ (exists e, httpClientDo env pool http.MethodPut (url host) = inl e)
          \/ exists e, ReadResponse env = inl e))
  \/ (exists inner before,
        proxyHTTP env pool host r msg
        = ((before ++ [PipeClose false; PipeClose true])%list, None)
        /\ omap statusWritten before = [StatusCode inner]
        /\ Forall (fun e => isPipeClose e = false) before
        /\ NewRequest env http.MethodPut (url host) = None
        /\ (exists status, httpClientDo env pool http.MethodPut (url host) = inr status)
        /\ ReadResponse env = inr inner).
Proof.
  unfold proxyHTTP.
  destruct (NewRequest env http.MethodPut (url host)) as [e|] eqn:Hreq.
  { left. eexists _, _. split; [reflexivity|].
    split; [repeat constructor|]. split; [repeat constructor|]. now left. }
  destruct (httpClientDo env pool http.MethodPut (url host)) as [e | status] eqn:Hdo.
  { left. eexists _, _. split; [reflexivity|].
    split; [repeat constructor|]. split; [repeat constructor|].
    right; left. now exists e. }
  destruct (ReadResponse env) as [e | inner] eqn:Hread.
  { left. eexists _, _. split; [reflexivity|].
    split; [repeat constructor|]. split; [repeat constructor|].
    right; right. now exists e. }
  right. exists inner.
  eexists ([LogMsg Debug "Start %s" msg []; Pipe; WriteTo msg; GoWriteRequest r;
            Do http.MethodPut (url host); CopyHeader (InnerHeader inner);
            WriteHeader (StatusCode inner)]
           ++ match Body inner with
              | Some body =>
                  map Relay (transfer (ioCopy env) "remote to local"
                               (responseWriter env) body)
              | None => []
              end
           ++ [RecvDone; LogMsg Debug "Done %s" msg []])%list.
  split; [|split; [|split; [|split; [|split]]]].
  - cbn [app]. now rewrite <- !app_assoc.
  - cbn [app omap list_omap statusWritten]. f_equal.
    rewrite omap_app. destruct (Body inner); [now rewrite relay_no_status|reflexivity].
  - repeat (apply Forall_app_2 || apply Forall_cons_2 || apply Forall_nil_2);
      try reflexivity.
    destruct (Body inner); [apply relay_no_pipe_close | constructor].
  - reflexivity.
  - now exists status.
  - reflexivity.
Qed.

End OneAnswer.

Lemma status_of_quiet (t : list Server.Event) :
  Forall (fun e => writesResponse e = false) t -> omap statusWritten t = [].
Proof.
  induction 1 as [|e t He _ IH]; [reflexivity|].
  cbn [omap list_omap]. destruct e; cbn in He; try discriminate; exact IH.
Qed.

(** X12: on every path [proxyHTTP] closes the two ends of its pipe, the
    write end first, as its last actions and not before.  It returns an
    error exactly when the request cannot be built, the round trip over the
    tunnel fails or the response cannot be read, and then it has written
    nothing to the caller: no header, no status, no body. *)
Theorem proxyHTTP_closes_pipe (env : Server.Env) (pool : gmap string Server.Conn)
    (host : string) (r : http.Request) (msg : Server.ControlMessage) :
  (exists before,
      fst (Server.proxyHTTP env pool host r msg)
      = (before ++ [Server.PipeClose false; Server.PipeClose true])%list
      /\ Forall (fun e => isPipeClose e = false) before)
  /\ (snd (Server.proxyHTTP env pool host r msg) <> None ->
      Forall (fun e => writesResponse e = false)
        (fst (Server.proxyHTTP env pool host r msg)))
  /\ (snd (Server.proxyHTTP env pool host r msg) = None
      <-> Server.NewRequest env http.MethodPut (url host) = None
          /\ (exists status,
                 Server.httpClientDo env pool http.MethodPut (url host) = inr status)
          /\ exists inner, Server.ReadResponse env = inr inner).
Proof.
  destruct (proxyHTTP_cases env pool host r msg)
    as [(err & before & -> & Hq & Hp & Hwhy)
       | (inner & before & -> & Hs & Hp & Hreq & Hdo & Hread)];
    cbn [fst snd].
  - split; [now exists before|]. split.
    + intros _. apply Forall_app_2; [assumption | repeat constructor].
    + split; [discriminate|]. intros (Hreq & [status Hdo] & [inner Hread]).
      destruct Hwhy as [Hwhy | [[e Hwhy] | [e Hwhy]]]; congruence.
  - split; [now exists before|]. split; [congruence|].
    split; [intros _ | reflexivity]. split; [assumption|].
    split; [assumption | now exists inner].
Qed.

Lemma proxyHTTP_closes_pipe_witness :
  Forall (fun e => writesResponse e = false)
    (fst (Server.proxyHTTP (serverEnv 200) ∅ "b.example" (getRequest "b.example")
            (entryMessage (getRequest "b.example")))).
Proof.
  apply (proj1 (proj2 (proxyHTTP_closes_pipe (serverEnv 200) ∅ "b.example"
                         (getRequest "b.example")
                         (entryMessage (getRequest "b.example"))))).
  discriminate.
Defined.

(** X13: [ServeHTTP] of the tunnel server writes exactly one status to its
    caller: the status of the response read from the tunnel when the
    request was built, the round trip done and the response read, and 502
    otherwise. *)
Theorem ServeHTTP_one_status (env : Server.Env) (pool : gmap string Server.Conn)
    (r : http.Request) :
  omap statusWritten (Server.ServeHTTP env pool r)
  = [match Server.NewRequest env http.MethodPut
             (url (Server.trimPort (http.Host r))),
           Server.httpClientDo env pool http.MethodPut
             (url (Server.trimPort (http.Host r))),
           Server.ReadResponse env with
     | None, inr _, inr inner => Server.StatusCode inner
     | _, _, _ => http.StatusBadGateway
     end].
Proof.
  rewrite ServeHTTP_unfold.
  destruct (proxyHTTP_cases env pool (Server.trimPort (http.Host r)) r (entryMessage r))
    as [(err & before & -> & Hq & Hp & Hwhy)
       | (inner & before & -> & Hs & Hp & Hreq & [status Hdo] & Hread)];
    cbn [fst snd]; rewrite !omap_app.
  - rewrite (status_of_quiet before Hq). cbn.
    set (built := Server.NewRequest env http.MethodPut
                    (url (Server.trimPort (http.Host r)))) in *.
    set (done := Server.httpClientDo env pool http.MethodPut
                   (url (Server.trimPort (http.Host r)))) in *.
    destruct Hwhy as [Hwhy | [[e Hwhy] | [e Hwhy]]].
    + destruct built; [reflexivity | contradiction].
    + rewrite Hwhy. now destruct built.
    + rewrite Hwhy. now destruct built, done.
  - rewrite Hs, Hreq, Hdo, Hread. reflexivity.
Qed.

(** ** The tunnel server: the public connection *)

(** X14: on every path the deferred [c.Close()] is the very last action of
    [proxyConn], after the two ends of its pipe, and no statement of
    [proxyConn] itself closes the public connection before it.  It is not
    the only close of the connection: once the request is built, a relay
    is started that reads from the connection, and its [transfer] ends by
    half-closing the connection for reading or, where the connection has
    no [CloseRead], by closing it in full; so the connection is closed in
    full once when the request cannot be built or the connection has
    [CloseRead], and twice otherwise.  [proxyConn] returns an error exactly
    when the request cannot be built or the round trip over the tunnel
    fails, and then nothing was relayed back to the public connection and
    the other relay was not waited for. *)
Theorem proxyConn_closes (env : ProxyConn.Env) (pool : gmap string Server.Conn)
    (host : string) (c : Server.Conn) (msg : Server.ControlMessage) :
  let conn := ProxyConn.connEndpoint env c in
  let trace := fst (ProxyConn.proxyConn env pool host c msg) in
  let upstream :=
    transfer (Server.ioCopy (ProxyConn.server env)) "local to remote"
      (ProxyConn.pipeWriter env) conn in
  (exists before,
      trace
      = (before
         ++ [ProxyConn.Ev (Server.PipeClose false);
             ProxyConn.Ev (Server.PipeClose true);
             ProxyConn.Ev (Server.ConnClose c)])%list
      /\ Forall (fun e => deferredClose e = false) before)
  /\ (snd (ProxyConn.proxyConn env pool host c msg) <> None ->
      Forall (fun e => relaysBack e = false) trace)
  /\ (snd (ProxyConn.proxyConn env pool host c msg) = None
      <-> Server.NewRequest (ProxyConn.server env) http.MethodPut (url host) = None
          /\ exists status,
               Server.httpClientDo (ProxyConn.server env) pool http.MethodPut (url host)
               = inr status)
  /\ (forall body,
        In (ProxyConn.GoTransfer body) trace ->
        body = upstream
        /\ Server.NewRequest (ProxyConn.server env) http.MethodPut (url host) = None)
  /\ (Server.NewRequest (ProxyConn.server env) http.MethodPut (url host) = None ->
      In (ProxyConn.GoTransfer upstream) trace
      /\ filter isClosing upstream = relayCloses (ProxyConn.pipeWriter env) conn
      /\ (closeReader conn = true ->
          In (CloseRead conn) upstream /\ filter isClose upstream = [])
      /\ (closeReader conn = false -> filter isClose upstream = [Close conn]))
  /\ list_sum (map connCloses trace)
     = match Server.NewRequest (ProxyConn.server env) http.MethodPut (url host) with
       | Some _ => 1%nat
       | None => if closeReader conn then 1%nat else 2%nat
       end.
Proof.
  intros conn trace upstream.
  assert (Hclose : filter isClose upstream
                   = if closeReader conn then [] else [Close conn]).
  { subst upstream. rewrite transfer_unfold.
    destruct (snd (Server.ioCopy (ProxyConn.server env) (ProxyConn.pipeWriter env) conn)),
      (closeWriter (ProxyConn.pipeWriter env)) eqn:Hw, (closeReader conn) eqn:Hr;
      unfold relayCloses; rewrite Hw, Hr; reflexivity. }
  assert (Hrelay : forall l : list IOEvent,
             list_sum (map connCloses
                         (map (fun e => ProxyConn.Ev (Server.Relay e)) l)) = 0%nat).
  { induction l as [|e l IH]; [reflexivity | exact IH]. }
  assert (Hnot : forall (l : list IOEvent) body,
             ~ In (ProxyConn.GoTransfer body)
                 (map (fun e => ProxyConn.Ev (Server.Relay e)) l)).
  { intros l body Hin. apply in_map_iff in Hin as (e & [=] & _). }
  subst trace. unfold ProxyConn.proxyConn. fold conn. fold upstream.
  destruct (Server.NewRequest (ProxyConn.server env) http.MethodPut (url host))
    as [e|] eqn:Hreq.
  { cbn [fst snd]. repeat apply conj.
    - eexists. split; [reflexivity | repeat constructor].
    - intros _. repeat constructor.
    - discriminate.
    - intros [[=] _].
    - intros body Hin. cbn in Hin. intuition discriminate.
    - discriminate.
    - reflexivity. }
  assert (Hup : In (CloseRead conn) upstream \/ closeReader conn = false).
  { destruct (closeReader conn) eqn:Hr; [left | now right].
    subst upstream. apply (transfer_closing _ _ _ conn). exact Hr. }
  destruct (Server.httpClientDo (ProxyConn.server env) pool http.MethodPut (url host))
    as [e | status] eqn:Hdo.
  { cbn [fst snd]. repeat apply conj.
    - eexists. split; [reflexivity | repeat constructor].
    - intros _. repeat constructor.
    - discriminate.
    - intros [_ [status [=]]].
    - intros body Hin. cbn in Hin.
      destruct Hin as [Hin | [Hin | [Hin | [Hin | Hin]]]]; try discriminate.
      + injection Hin as <-. now split.
      + intuition discriminate.
    - intros _. repeat apply conj.
      + cbn. tauto.
      + subst upstream. apply transfer_closes.
      + intros Hr. rewrite Hclose, Hr. split; [|reflexivity].
        destruct Hup as [Hup | Hup]; [exact Hup | congruence].
      + intros Hr. now rewrite Hclose, Hr.
    - cbn [app map list_sum connCloses fold_right]. rewrite Hclose.
      now destruct (closeReader conn). }
  cbn [fst snd]. repeat apply conj.
  - exists ([ProxyConn.Ev (Server.LogMsg Server.Debug "Start %s" msg []);
             ProxyConn.Ev Server.Pipe;
             ProxyConn.Ev (Server.WriteTo msg);
             ProxyConn.GoTransfer upstream;
             ProxyConn.Ev (Server.Do http.MethodPut (url host))]
            ++ map (fun e => ProxyConn.Ev (Server.Relay e))
                 (transfer (Server.ioCopy (ProxyConn.server env)) "remote to local"
                    conn (ProxyConn.respBody env))
            ++ [ProxyConn.Ev Server.RecvDone;
                ProxyConn.Ev (Server.LogMsg Server.Debug "Done %s" msg [])])%list.
    split; [cbn [app]; now rewrite <- !app_assoc|].
    repeat (apply Forall_app_2 || apply Forall_cons_2 || apply Forall_nil_2);
      try reflexivity.
    apply Forall_map, List.Forall_forall. reflexivity.
  - intros Hne. now destruct Hne.
  - intros _. split; [reflexivity | now exists status].
  - reflexivity.
  - intros body Hin. cbn [app] in Hin.
    destruct Hin as [Hin | [Hin | [Hin | [Hin | [Hin | Hin]]]]]; try discriminate.
    + injection Hin as <-. now split.
    + apply in_app_or in Hin as [Hin | Hin]; [now apply Hnot in Hin|].
      cbn in Hin. intuition discriminate.
  - intros _. repeat apply conj.
    + cbn. tauto.
    + subst upstream. apply transfer_closes.
    + intros Hr. rewrite Hclose, Hr. split; [|reflexivity].
      destruct Hup as [Hup | Hup]; [exact Hup | congruence].
    + intros Hr. now rewrite Hclose, Hr.
  - cbn [app map list_sum fold_right]. rewrite map_app, list_sum_app, Hrelay.
    cbn [app map list_sum connCloses fold_right]. rewrite Hclose.
    now destruct (closeReader conn).
Qed.

(** A connection without [CloseRead], as a TLS connection is, whose round
    trip fails: nothing is relayed back, and the connection is closed
    twice, by the relay that reads from it and by the deferred close. *)
Lemma proxyConn_closes_witness :
  Forall (fun e => relaysBack e = false)
    (fst (ProxyConn.proxyConn untilEOFEnv ∅ "b.example" sampleConn
            (listenerMessage (Server.listener sampleServer) sampleConn)))
  /\ list_sum
       (map connCloses
          (fst (ProxyConn.proxyConn untilEOFEnv ∅ "b.example" sampleConn
                  (listenerMessage (Server.listener sampleServer) sampleConn))))
     = 2%nat.
Proof.
  pose proof (proxyConn_closes untilEOFEnv ∅ "b.example" sampleConn
                (listenerMessage (Server.listener sampleServer) sampleConn)) as H.
  cbv zeta in H. destruct H as (_ & Hback & _ & _ & _ & Hcount).
  split; [apply Hback; discriminate | exact Hcount].
Defined.

(** ** The routing key: never empty, never longer, brackets off *)

Section RoutingKeyMore.
Import GoStrings.

Lemma len_taken (n : nat) (s : string) : len (taken n s) <= len s.
Proof.
  revert s. induction n as [|n IH]; intros s; [cbn; apply len_nonneg|].
  destruct s as [|a s]; [cbn; lia|].
  cbn [taken]. rewrite !len_String. specialize (IH s). lia.
Qed.

Lemma len_dropn (n : nat) (s : string) : len (dropn n s) <= len s.
Proof.
  revert s. induction n as [|n IH]; intros s; [cbn; lia|].
  destruct s as [|a s]; [cbn; lia|].
  cbn [dropn]. rewrite len_String. specialize (IH s). lia.
Qed.

Lemma len_slice (s : string) (i j : Z) : len (slice s i j) <= len s.
Proof.
  unfold slice, sliceFrom, sliceTo.
  pose proof (len_dropn (Z.to_nat i) (taken (Z.to_nat j) s)).
  pose proof (len_taken (Z.to_nat j) s). lia.
Qed.

(** The host that [SplitHostPort] returns is a piece of its input. *)
Lemma SplitHostPort_host_len (s host port : string) :
  Net.SplitHostPort s = Some (host, port) -> len host <= len s.
Proof.
  unfold Net.SplitHostPort.
  destruct (LastIndexByte s ":" <? 0); [discriminate|].
  destruct (Ascii.eqb (byteAt s 0) "[").
  - destruct (IndexByte s "]" <? 0); [discriminate|].
    destruct (IndexByte s "]" + 1 =? len s); [discriminate|].
    destruct (IndexByte s "]" + 1 =? LastIndexByte s ":"); [|discriminate].
    cbn [negb].
    destruct (0 <=? IndexByte (sliceFrom s 1) "["); [discriminate|].
    destruct (0 <=? IndexByte (sliceFrom s (IndexByte s "]" + 1)) "]"); [discriminate|].
    intros [= <- _]. apply len_slice.
  - destruct (0 <=? IndexByte (sliceTo s (LastIndexByte s ":")) ":"); [discriminate|].
    cbn [negb].
    destruct (0 <=? IndexByte (sliceFrom s 0) "["); [discriminate|].
    destruct (0 <=? IndexByte (sliceFrom s 0) "]"); [discriminate|].
    intros [= <- _]. apply len_taken.
Qed.

Lemma append_assoc' (a b c : string) : (a +:+ b) +:+ c = a +:+ (b +:+ c).
Proof.
  induction a as [|x a IH]; [reflexivity|].
  rewrite !append_String. now rewrite IH.
Qed.

Lemma len_append (a b : string) : len (a +:+ b) = len a + len b.
Proof.
  induction a as [|x a IH]; [rewrite append_empty; change (len "") with 0; lia|].
  rewrite append_String, !len_String. lia.
Qed.

(** A bracketed host followed by a colon and a plain port splits into the
    host without its brackets and the port. *)
Lemma SplitHostPort_bracketed (h p : string) :
  IndexByte h "[" < 0 -> IndexByte h "]" < 0 -> plainName p ->
  Net.SplitHostPort ("[" +:+ h +:+ "]:" +:+ p) = Some (h, p).
Proof.
  intros Hl Hr (Hpc & Hpl & Hpr).
  set (open := String "[" h).
  change ("[" +:+ h +:+ "]:" +:+ p) with (open +:+ String "]" (String ":" p)).
  assert (Hlen : len open = len h + 1) by apply len_String.
  pose proof (len_nonneg h) as Hh.
  assert (Hopen : IndexByte open "]" < 0)
    by (apply IndexByte_String_other; [discriminate | assumption]).
  assert (Hclose : IndexByte (open +:+ String "]" (String ":" p)) "]" = len open)
    by now apply IndexByte_first.
  assert (Hlast : LastIndexByte (open +:+ String "]" (String ":" p)) ":" = len open + 1).
  { change (open +:+ String "]" (String ":" p))
      with (open +:+ (String "]" EmptyString +:+ String ":" p)).
    rewrite <- append_assoc', (LastIndexByte_middle _ p ":" Hpc), len_append.
    reflexivity. }
  unfold Net.SplitHostPort. rewrite Hlast, Hclose.
  destruct (Z.ltb_spec (len open + 1) 0); [lia|].
  change (byteAt (open +:+ String "]" (String ":" p)) 0) with "["%char.
  cbn [Ascii.eqb Bool.eqb andb].
  destruct (Z.ltb_spec (len open) 0); [lia|].
  rewrite len_append, !len_String. pose proof (len_nonneg p).
  destruct (Z.eqb_spec (len open + 1) (len open + (len p + 1 + 1))); [lia|].
  rewrite Z.eqb_refl. cbn [negb].
  unfold slice. rewrite sliceTo_app.
  change (sliceFrom open 1) with h.
  change (sliceFrom (open +:+ String "]" (String ":" p)) 1)
    with (h +:+ String "]" (String ":" p)).
  rewrite sliceFrom_middle.
  assert (Hin1 : IndexByte (h +:+ String "]" (String ":" p)) "[" < 0).
  { apply IndexByte_app_absent; [assumption|].
    do 2 (apply IndexByte_String_other; [discriminate|]). assumption. }
  assert (Hin2 : IndexByte (String ":" p) "]" < 0)
    by (apply IndexByte_String_other; [discriminate | assumption]).
  destruct (Z.leb_spec 0 (IndexByte (h +:+ String "]" (String ":" p)) "[")); [lia|].
  destruct (Z.leb_spec 0 (IndexByte (String ":" p) "]")); [lia|].
  do 2 f_equal.
  change (open +:+ String "]" (String ":" p))
    with (open +:+ (String "]" EmptyString +:+ String ":" p)).
  rewrite <- append_assoc'.
  replace (len open + 1 + 1) with (len (open +:+ String "]" EmptyString) + 1)
    by (rewrite len_append; reflexivity).
  apply sliceFrom_middle.
Qed.

End RoutingKeyMore.

(** X15: the routing key of a host is a piece of the host: [trimPort] never
    returns a longer string than it is given, and it returns the empty
    string only for the empty string. *)
Theorem trimPort_piece (s : string) :
  GoStrings.len (Server.trimPort s) <= GoStrings.len s
  /\ (Server.trimPort s = "" <-> s = "").
Proof.
  unfold Server.trimPort.
  destruct (Net.SplitHostPort s) as [[host port]|] eqn:Hsplit.
  - apply SplitHostPort_host_len in Hsplit.
    destruct (String.eqb_spec host "") as [-> | Hne].
    + split; [lia | tauto].
    + split; [assumption|]. split; [contradiction|].
      intros ->. change (GoStrings.len "") with 0 in Hsplit.
      destruct host as [|a host]; [contradiction|].
      rewrite len_String in Hsplit. pose proof (len_nonneg host). lia.
  - cbn [String.eqb]. split; [lia | tauto].
Qed.

(** X16: for a bracketed host, as an IPv6 literal is written, [trimPort]
    strips the brackets together with the port: the key of ["[h]:p"] is [h],
    for every non-empty [h] without a bracket in it (colons it may have)
    and every port [p] without colon or bracket. *)
Theorem trimPort_bracketed (h p : string) :
  h <> "" ->
  GoStrings.IndexByte h "[" < 0 -> GoStrings.IndexByte h "]" < 0 -> plainName p ->
  Server.trimPort ("[" +:+ h +:+ "]:" +:+ p) = h.
Proof.
  intros Hne Hl Hr Hp. unfold Server.trimPort.
  rewrite (SplitHostPort_bracketed h p Hl Hr Hp).
  destruct (String.eqb_spec h ""); [contradiction | reflexivity].
Qed.

Lemma trimPort_bracketed_witness :
  Server.trimPort ("[" +:+ "2001:db8::1" +:+ "]:" +:+ "8443") = "2001:db8::1".
Proof.
  apply trimPort_bracketed.
  - discriminate.
  - vm_compute. reflexivity.
  - vm_compute. reflexivity.
  - repeat split; vm_compute; reflexivity.
Defined.

(** ** The reverse proxy's director *)



(** ** Copied headers and counted bytes *)

Lemma copyHeader_union (dst src : http.Header) : copyHeader dst src = src ∪ dst.
Proof.
  unfold copyHeader, http.Header in *.
  apply (map_fold_weak_ind (fun r (m : gmap string (list string)) => r = m ∪ dst)).
  - now rewrite (left_id_L ∅ (∪)).
  - intros k v m r Hk ->. now rewrite insert_union_l.
Qed.

(** X18: after [copyHeader(dst, src)] every key of [src] has the values it
    has in [src], whatever [dst] held for it, and every other key has what
    it had in [dst]; copying the same source again, or an empty source,
    changes nothing. *)
Theorem copyHeader_spec (dst src : http.Header) :
  (forall key,
      copyHeader dst src !! key
      = match src !! key with
        | Some v => Some v
        | None => dst !! key
        end)
  /\ copyHeader (copyHeader dst src) src = copyHeader dst src
  /\ copyHeader dst ∅ = dst.
Proof.
  rewrite !copyHeader_union. unfold http.Header in *. split; [|split].
  - intros key. rewrite lookup_union. destruct (src !! key), (dst !! key); reflexivity.
  - rewrite (assoc_L (∪)). now rewrite (idemp_L (∪)).
  - now rewrite (left_id_L ∅ (∪)).
Qed.

Section CountedBytes.

Lemma wrap64_id (z : Z) : - 2 ^ 63 <= z < 2 ^ 63 -> wrap64 z = z.
Proof.
  intros Hz. unfold wrap64. rewrite Z.mod_small; lia.
Qed.

Lemma wrap64_add (a b : Z) : wrap64 (wrap64 a + b) = wrap64 (a + b).
Proof.
  unfold wrap64. f_equal.
  replace ((a + 2 ^ 63) mod 2 ^ 64 - 2 ^ 63 + b + 2 ^ 63)
    with ((a + 2 ^ 63) mod 2 ^ 64 + b) by lia.
  rewrite Zplus_mod_idemp_l. f_equal. lia.
Qed.

Lemma countWriter_Writes_sum (results : list (Z * option string)) (count : Z) :
  countWriter_Writes (wrap64 count) results
  = wrap64 (count + foldr Z.add 0 (map fst results)).
Proof.
  revert count. induction results as [|res rest IH]; intros count.
  - cbn. f_equal. lia.
  - cbn [countWriter_Writes countWriter_Write fst map foldr].
    rewrite wrap64_add, IH. f_equal. lia.
Qed.

End CountedBytes.

(** X19: a [countWriter] counts what the writer below it took: after any
    sequence of writes its count is the count it started with plus the sum
    of the numbers of bytes those writes returned, whether or not they
    returned an error, wrapped to 64 bits; short of an overflow it is the
    exact sum.  Each write hands back what the writer below returned. *)
Theorem countWriter_counts (count : Z) (results : list (Z * option string)) :
  - 2 ^ 63 <= count < 2 ^ 63 ->
  countWriter_Writes count results
  = wrap64 (count + foldr Z.add 0 (map fst results))
  /\ (- 2 ^ 63 <= count + foldr Z.add 0 (map fst results) < 2 ^ 63 ->
      countWriter_Writes count results
      = count + foldr Z.add 0 (map fst results))
  /\ Forall (fun res => snd (countWriter_Write count res) = res) results.
Proof.
  intros Hc.
  assert (H : countWriter_Writes count results
              = wrap64 (count + foldr Z.add 0 (map fst results))).
  { rewrite <- (wrap64_id count Hc) at 1. apply countWriter_Writes_sum. }
  split; [exact H|]. split.
  - intros Hsum. rewrite H. now apply wrap64_id.
  - apply List.Forall_forall. reflexivity.
Qed.

Lemma countWriter_counts_witness :
  countWriter_Writes 0 [(4096, None); (4096, None); (120, Some "io: read/write on closed pipe")]
  = 8312.
Proof.
  destruct (countWriter_counts 0
              [(4096, None); (4096, None); (120, Some "io: read/write on closed pipe")])
    as (_ & H & _); [vm_compute; split; [discriminate | reflexivity]|].
  apply H. vm_compute. split; [discriminate | reflexivity].
Defined.

(** ** The keep-alive option string *)

Section KeepAliveOptions.
Import GoStrings keepalive.

Variable lib : Strconv.

Lemma Split_nonempty (s : string) (sep : ascii) : Split s sep <> [].
Proof.
  destruct s as [|a s]; cbn [Split]; [discriminate|].
  destruct (Ascii.eqb a sep); [discriminate|].
  destruct (Split s sep); discriminate.
Qed.

(** Splitting a joined string gives the pieces of both parts. *)
Lemma Split_joined (a b : string) (sep : ascii) :
  Split (a +:+ String sep b) sep = (Split a sep ++ Split b sep)%list.
Proof.
  induction a as [|x a IH].
  - rewrite append_empty. cbn [Split]. now rewrite Ascii.eqb_refl.
  - rewrite append_String. cbn [Split]. rewrite IH.
    destruct (Ascii.eqb x sep); [reflexivity|].
    pose proof (Split_nonempty a sep).
    destruct (Split a sep); [contradiction | reflexivity].
Qed.

Lemma setOptions_app (c : Config) (l1 l2 : list string) :
  setOptions lib c (l1 ++ l2)
  = match setOptions lib c l1 with
    | (c', Some err) => (c', Some err)
    | (c', None) => setOptions lib c' l2
    end.
Proof.
  revert c. induction l1 as [|o l1 IH]; intros c; [reflexivity|].
  cbn [app setOptions]. destruct (setOption lib c o) as [c' [err|]]; [reflexivity|].
  apply IH.
Qed.

(** Whether an option is taken does not depend on the configuration. *)
Lemma setOption_ok (c : Config) (opt : string) :
  snd (setOption lib c opt) = None <-> validOption lib opt.
Proof.
  unfold setOption, validOption.
  destruct (Split opt "=") as [|k [|v [|x l]]]; cbn [snd];
    try (split; [discriminate | intros (k0 & v0 & [=] & _)]).
  destruct (Z.eqb_spec (len (TrimSpace lib v)) 0) as [Hz | Hnz].
  { cbn [snd]. split; [discriminate|].
    intros (k0 & v0 & [= <- <-] & Hne & _). contradiction. }
  destruct (String.eqb_spec (TrimSpace lib k) "idle_time") as [Hk | Hk1].
  { cbn [snd]. split; [intros _ | reflexivity]. exists k, v. auto. }
  destruct (String.eqb_spec (TrimSpace lib k) "count") as [Hk | Hk2].
  { destruct (ParseInt lib (TrimSpace lib v)) as [n|] eqn:Hparse; cbn [snd].
    - split; [intros _ | reflexivity]. exists k, v.
      split; [reflexivity|]. split; [assumption|]. right; left.
      split; [assumption | congruence].
    - split; [discriminate|].
      intros (k0 & v0 & [= <- <-] & _ & [Hi | [[_ Hp] | Hi]]); congruence. }
  destruct (String.eqb_spec (TrimSpace lib k) "interval") as [Hk | Hk3].
  { cbn [snd]. split; [intros _ | reflexivity]. exists k, v. auto. }
  cbn [snd]. split; [discriminate|].
  intros (k0 & v0 & [= <- <-] & _ & [Hi | [[Hi _] | Hi]]); congruence.
Qed.

Lemma setOptions_ok (c : Config) (opts : list string) :
  snd (setOptions lib c opts) = None <-> Forall (validOption lib) opts.
Proof.
  revert c. induction opts as [|o opts IH]; intros c; cbn [setOptions].
  - split; [constructor | reflexivity].
  - pose proof (setOption_ok c o) as Ho.
    destruct (setOption lib c o) as [c' [err|]]; cbn [snd] in *.
    + split; [discriminate|]. intros Hall. apply Forall_cons in Hall as [Hv _].
      apply Ho in Hv. discriminate.
    + rewrite IH. split.
      * intros Hall. constructor; [now apply Ho | assumption].
      * intros Hall. now apply Forall_cons in Hall as [_ Hall].
Qed.

(** An option changes no field but the one it names. *)
Lemma setOption_frame (c : Config) (opt : string) :
  (~ namesKey lib "idle_time" opt ->
   KeepAliveIdleTime (fst (setOption lib c opt)) = KeepAliveIdleTime c)
  /\ (~ namesKey lib "count" opt ->
      KeepAliveCount (fst (setOption lib c opt)) = KeepAliveCount c)
  /\ (~ namesKey lib "interval" opt ->
      KeepAliveInterval (fst (setOption lib c opt)) = KeepAliveInterval c).
Proof.
  unfold setOption, namesKey.
  destruct (Split opt "=") as [|k [|v [|x l]]]; cbn [fst]; try (repeat split; fail).
  destruct (len (TrimSpace lib v) =? 0); [repeat split|].
  destruct (String.eqb_spec (TrimSpace lib k) "idle_time") as [Hk | Hk1].
  { cbn [fst]. repeat split. intros Hno. destruct Hno. now exists k, v. }
  destruct (String.eqb_spec (TrimSpace lib k) "count") as [Hk | Hk2].
  { destruct (ParseInt lib (TrimSpace lib v)); cbn [fst]; repeat split.
    intros Hno. destruct Hno. now exists k, v. }
  destruct (String.eqb_spec (TrimSpace lib k) "interval") as [Hk | Hk3].
  { cbn [fst]. repeat split. intros Hno. destruct Hno. now exists k, v. }
  repeat split.
Qed.

Lemma setOptions_frame (c : Config) (opts : list string) :
  (Forall (fun o => ~ namesKey lib "idle_time" o) opts ->
   KeepAliveIdleTime (fst (setOptions lib c opts)) = KeepAliveIdleTime c)
  /\ (Forall (fun o => ~ namesKey lib "count" o) opts ->
      KeepAliveCount (fst (setOptions lib c opts)) = KeepAliveCount c)
  /\ (Forall (fun o => ~ namesKey lib "interval" o) opts ->
      KeepAliveInterval (fst (setOptions lib c opts)) = KeepAliveInterval c).
Proof.
  revert c. induction opts as [|o opts IH]; intros c; cbn [setOptions].
  - repeat split.
  - destruct (setOption_frame c o) as (F1 & F2 & F3).
    destruct (setOption lib c o) as [c' [err|]]; cbn [fst] in *.
    + repeat split; intros Hall; apply Forall_cons in Hall as [Ho _]; auto.
    + destruct (IH c') as (I1 & I2 & I3).
      repeat split; intros Hall; apply Forall_cons in Hall as [Ho Hall].
      * rewrite I1, F1; auto.
      * rewrite I2, F2; auto.
      * rewrite I3, F3; auto.
Qed.

End KeepAliveOptions.

(** X20: [Config.Set] returns no error exactly when every piece of the
    option string between commas is a key and a value around a single
    ['='], with a value that is not empty once trimmed and a trimmed key
    that is [idle_time], [interval], or [count] with a value that parses as
    a number.  The empty option string is refused: it has one piece, and
    the piece has no ['=']. *)
Theorem Config_Set_accepts (lib : keepalive.Strconv) (c : keepalive.Config)
    (opt : string) :
  (snd (keepalive.Config_Set lib c opt) = None
   <-> Forall (validOption lib) (keepalive.Split opt ","))
  /\ keepalive.Config_Set lib c "" = (c, Some (keepalive.NotKeyValue "")).
Proof.
  split; [apply setOptions_ok | reflexivity].
Qed.

(** X21: an option string joined with a comma acts as its two parts set one
    after the other: the second part is applied to what the first part
    left, and if the first part is refused the second is not looked at and
    the error is that of the first, with the configuration as the first
    part left it. *)
Theorem Config_Set_joined (lib : keepalive.Strconv) (c : keepalive.Config)
    (a b : string) :
  keepalive.Config_Set lib c (a +:+ "," +:+ b)
  = match keepalive.Config_Set lib c a with
    | (c', Some err) => (c', Some err)
    | (c', None) => keepalive.Config_Set lib c' b
    end.
Proof.
  unfold keepalive.Config_Set.
  change (a +:+ "," +:+ b) with (a +:+ String "," b).
  rewrite Split_joined. apply setOptions_app.
Qed.

(** X22: [Config.Set] changes no field but those the option string names:
    when no piece of the string has the key [idle_time], the idle time stays
    what it was, and likewise the count and the interval, whether or not
    an error is returned. *)
Theorem Config_Set_frame (lib : keepalive.Strconv) (c : keepalive.Config)
    (opt : string) :
  (Forall (fun o => ~ namesKey lib "idle_time" o) (keepalive.Split opt ",") ->
   keepalive.KeepAliveIdleTime (fst (keepalive.Config_Set lib c opt))
   = keepalive.KeepAliveIdleTime c)
  /\ (Forall (fun o => ~ namesKey lib "count" o) (keepalive.Split opt ",") ->
      keepalive.KeepAliveCount (fst (keepalive.Config_Set lib c opt))
      = keepalive.KeepAliveCount c)
  /\ (Forall (fun o => ~ namesKey lib "interval" o) (keepalive.Split opt ",") ->
      keepalive.KeepAliveInterval (fst (keepalive.Config_Set lib c opt))
      = keepalive.KeepAliveInterval c).
Proof. apply setOptions_frame. Qed.

(** The count keeps its default when only the two durations are set. *)
Lemma Config_Set_frame_witness :
  keepalive.KeepAliveCount
    (fst (keepalive.Config_Set sampleLib defaultConfig "idle_time=10m,interval=10s"))
  = 8.
Proof.
  apply (proj1 (proj2 (Config_Set_frame sampleLib defaultConfig
                         "idle_time=10m,interval=10s"))).
  repeat constructor; intros (k & v & [= <- <-] & Hk); vm_compute in Hk; discriminate.
Defined.

(** The option strings of the package's tests. *)
Example Config_Set_tests :
  keepalive.Config_Set sampleLib defaultConfig "idle_time=10m,           count=10, interval=10s"
  = ({| keepalive.KeepAliveIdleTime := "10m"; keepalive.KeepAliveCount := 10;
        keepalive.KeepAliveInterval := "10s" |}, None)
  /\ keepalive.Config_Set sampleLib defaultConfig "interval=10s,idle_time=10m"
     = ({| keepalive.KeepAliveIdleTime := "10m"; keepalive.KeepAliveCount := 8;
           keepalive.KeepAliveInterval := "10s" |}, None)
  /\ snd (keepalive.Config_Set sampleLib defaultConfig "idle_time")
     = Some (keepalive.NotKeyValue "idle_time")
  /\ snd (keepalive.Config_Set sampleLib defaultConfig "count=a")
     = Some (keepalive.BadCount "a")
  /\ snd (keepalive.Config_Set sampleLib defaultConfig "idle_time=")
     = Some (keepalive.EmptyValue "idle_time=")
  /\ snd (keepalive.Config_Set sampleLib defaultConfig "balony_prop")
     = Some (keepalive.NotKeyValue "balony_prop").
Proof. repeat split; vm_compute; reflexivity. Qed.

(** ** The HTTP entry point: which errors reach the caller *)




(** ** The routing key, in full *)

(** C10, as the code has it: [trimPort] returns the host that [SplitHostPort]
    finds when that host is not empty, and its input unchanged when
    [SplitHostPort] does not split the input or finds an empty host.  So
    for a non-empty host [h] and a port [p] with no colon and no bracket in
    them, [trimPort] of ["h:p"] is [h] and [trimPort] of [h] is [h], and
    both look up the same entry of the registry; for a non-empty [h]
    without a bracket, [trimPort] of ["[h]:p"] is [h], the brackets gone
    with the port; and an input with an empty host, as [":p"] is, comes
    back unchanged, and so does ["[]:80"]. *)
Theorem trimPort_spec :
  (forall s host port,
      Net.SplitHostPort s = Some (host, port) -> host <> "" ->
      Server.trimPort s = host)
  /\ (forall s port, Net.SplitHostPort s = Some ("", port) -> Server.trimPort s = s)
  /\ (forall s, Net.SplitHostPort s = None -> Server.trimPort s = s)
  /\ (forall h p : string,
        h <> "" -> plainName h -> plainName p ->
        Server.trimPort (h +:+ ":" +:+ p) = h
        /\ Server.trimPort h = h
        /\ forall pool : gmap string Server.Conn,
            pool !! Server.trimPort (h +:+ ":" +:+ p) = pool !! Server.trimPort h)
  /\ Server.trimPort "a.example:8080" = Server.trimPort "a.example"
  /\ (forall h p : string,
        h <> "" ->
        GoStrings.IndexByte h "[" < 0 -> GoStrings.IndexByte h "]" < 0 ->
        plainName p ->
        Server.trimPort ("[" +:+ h +:+ "]:" +:+ p) = h)
  /\ (forall p : string, plainName p -> Server.trimPort (":" +:+ p) = ":" +:+ p)
  /\ Server.trimPort "[]:80" = "[]:80".
Proof.
  destruct trimPort_plain_key as (Hplain & Hnone & Hex).
  split; [|split; [|split; [|split; [|split; [|split; [|split; [|reflexivity]]]]]]].
  - intros s host port Hs Hne. unfold Server.trimPort. rewrite Hs.
    destruct (String.eqb_spec host ""); [contradiction | reflexivity].
  - intros s port Hs. unfold Server.trimPort. now rewrite Hs.
  - exact Hnone.
  - exact Hplain.
  - exact Hex.
  - intros h p Hne Hl Hr Hp. unfold Server.trimPort.
    rewrite (SplitHostPort_bracketed h p Hl Hr Hp).
    destruct (String.eqb_spec h ""); [contradiction | reflexivity].
  - intros p Hp. unfold Server.trimPort.
    change (":" +:+ p) with ("" +:+ ":" +:+ p).
    rewrite (SplitHostPort_plain "" p); [reflexivity | | exact Hp].
    repeat split; vm_compute; reflexivity.
Qed.

Lemma trimPort_spec_witness :
  Server.trimPort ("tunnel.example.org" +:+ ":" +:+ "443") = "tunnel.example.org"
  /\ Server.trimPort "localhost" = "localhost"
  /\ Server.trimPort (":" +:+ "8080") = ":" +:+ "8080"
  /\ Server.trimPort "[]:80" = "[]:80".
Proof.
  assert (Hh : plainName "tunnel.example.org") by (repeat split; vm_compute; reflexivity).
  assert (Hp : plainName "443") by (repeat split; vm_compute; reflexivity).
  assert (Hq : plainName "8080") by (repeat split; vm_compute; reflexivity).
  assert (Hne : "tunnel.example.org" <> "") by discriminate.
  destruct trimPort_spec as (_ & Hempty & Hnone & Hplain & _ & _ & Hcolon & _).
  split; [exact (proj1 (Hplain "tunnel.example.org" "443" Hne Hh Hp))|].
  split; [apply Hnone; reflexivity|].
  split; [exact (Hcolon "8080" Hq)|].
  apply (Hempty "[]:80" "80"). reflexivity.
Defined.
